(** * Print-finishing preview: the page annotator and the upload handler

    A shallow embedding of [main.py]: the in-memory image pipeline of
    [process_image] (grayscale, rotation, punch marks, staple mark) and the
    request handler [upload_file] with the files it writes.

    Pillow, PyMuPDF, the office automation and [os.path] are libraries the
    program calls.  The parts of Pillow whose result the program's
    behaviour is stated in ([Image.convert], [Image.rotate], the image
    size, the canvas an [ImageDraw] paints on) are modelled here; the scan
    conversion of shapes, the file codecs, the converters and the path
    functions are interfaces, with small instances to run examples on. *)

From Stdlib Require Import ZArith Lia.
From Stdlib Require Import Ascii String.
From Stdlib.Strings Require Import Byte.
From stdpp Require Import base list strings gmap pretty.

Local Open Scope Z_scope.

(** ** Raster images, after Pillow's [Image] *)

(** The two colour modes of the data model: 8-bit grayscale, 24-bit colour. *)
Inductive Mode := ModeL | ModeRGB.

Inductive Pixel :=
  | PL (v : Z)
  | PRGB (r g b : Z).

(** [data] is the pixel buffer in row-major order: the pixel at column [x]
    of row [y] sits at index [y * width + x]. *)
Record Image := mkImage {
  mode : Mode;
  width : nat;
  height : nat;
  data : list Pixel
}.

(** [img.size] *)
Definition size (img : Image) : Z * Z :=
  (Z.of_nat (width img), Z.of_nat (height img)).

Definition getpixel (img : Image) (x y : nat) : option Pixel :=
  if bool_decide (x < width img)%nat && bool_decide (y < height img)%nat
  then data img !! (y * width img + x)%nat
  else None.

Definition pixel_has_mode (m : Mode) (p : Pixel) : Prop :=
  match m, p with
  | ModeL, PL _ => True
  | ModeRGB, PRGB _ _ _ => True
  | _, _ => False
  end.

(** A buffer of the right length whose pixels all have the image's mode. *)
Definition well_formed (img : Image) : Prop :=
  length (data img) = (width img * height img)%nat ∧
  Forall (pixel_has_mode (mode img)) (data img).

Definition black (m : Mode) : Pixel :=
  match m with
  | ModeL => PL 0
  | ModeRGB => PRGB 0 0 0
  end.

(** A [w] by [h] buffer whose pixel at [(x, y)] is [f x y]. *)
Definition tabulate (w h : nat) (f : nat → nat → Pixel) : list Pixel :=
  (λ i, f (i mod w)%nat (i / w)%nat) <$> seq 0 (w * h).

(** Pillow's ITU-R 601-2 luma transform, in 16-bit fixed point. *)
Definition L24 (r g b : Z) : Z :=
  r * 19595 + g * 38470 + b * 7471 + 0x8000.

Definition rgb2l (p : Pixel) : Pixel :=
  match p with
  | PRGB r g b => PL (Z.shiftr (L24 r g b) 16)
  | PL v => PL v
  end.

(** [img.convert("L")]: an image that is in mode L already is copied as it
    is, any other one goes through the luma transform. *)
Definition convert_L (img : Image) : Image :=
  match mode img with
  | ModeL => img
  | ModeRGB =>
      {| mode := ModeL; width := width img; height := height img;
         data := rgb2l <$> data img |}
  end.

(** [img.rotate(90, expand=True)]: for a right angle with [expand] Pillow
    does no resampling, it returns [transpose(ROTATE_90)], the
    counter-clockwise quarter turn: the source pixel [(x, y)] lands on
    [(y, width - 1 - x)] of a canvas [height] wide and [width] tall. *)
Definition rotate_90_expand (img : Image) : Image :=
  {| mode := mode img;
     width := height img;
     height := width img;
     data := tabulate (height img) (width img)
               (λ x' y', default (black (mode img))
                           (getpixel img (width img - 1 - y')%nat x')) |}.

(** ** Drawing, after Pillow's [ImageDraw] *)

(** Which pixels a shape covers is the business of Pillow's scan
    conversion; the annotator only chooses the coordinates. *)
Class Rasterizer := {
  ellipse_mask : Z * Z * Z * Z → Z → Z → bool;
  polygon_mask : list (Z * Z) → Z → Z → bool
}.

(** [ImageColor.colormap["grey"]] is [#808080]. *)
Definition grey : Z * Z * Z := (128, 128, 128).

(** [ImageColor.getcolor]: the ink a colour gives in an image mode. *)
Definition getcolor (color : Z * Z * Z) (m : Mode) : Pixel :=
  let '(r, g, b) := color in
  match m with
  | ModeL => PL (Z.shiftr (L24 r g b) 16)
  | ModeRGB => PRGB r g b
  end.

(** Pixels under the mask take the ink; the mask is only ever asked about
    pixels of the canvas, so what falls outside is clipped. *)
Definition paint (mask : Z → Z → bool) (ink : Pixel) (img : Image) : Image :=
  {| mode := mode img; width := width img; height := height img;
     data := imap (λ i p,
                    if mask (Z.of_nat (i mod width img)) (Z.of_nat (i / width img))
                    then ink else p)
                  (data img) |}.

Inductive DrawCall :=
  | Ellipse (xy : Z * Z * Z * Z) (fill : Z * Z * Z)
  | Polygon (xy : list (Z * Z)) (fill : Z * Z * Z).

(** The drawing context: the image it paints on, which it mutates in
    place, and the calls made on it so far, oldest first. *)
Record ImageDraw := mkDraw {
  im : Image;
  calls : list DrawCall
}.

(** [ImageDraw.Draw(img)] *)
Definition Draw (img : Image) : ImageDraw :=
  {| im := img; calls := [] |}.

Section Drawing.
Context {rasterizer : Rasterizer}.

(** [draw.ellipse(xy, fill=...)] *)
Definition ellipse (xy : Z * Z * Z * Z) (fill : Z * Z * Z)
    (draw : ImageDraw) : ImageDraw :=
  {| im := paint (ellipse_mask xy) (getcolor fill (mode (im draw))) (im draw);
     calls := calls draw ++ [Ellipse xy fill] |}.

(** [draw.polygon(xy, fill=...)] *)
Definition polygon (xy : list (Z * Z)) (fill : Z * Z * Z)
    (draw : ImageDraw) : ImageDraw :=
  {| im := paint (polygon_mask xy) (getcolor fill (mode (im draw))) (im draw);
     calls := calls draw ++ [Polygon xy fill] |}.

(** ** The annotator: the body of [process_image] between [Image.open]
    and [img.save] *)

Definition staple_coords : list (Z * Z) :=
  [ (35, 40); (75, 30); (77, 35); (37, 45) ].

Definition annotate (img : Image)
    (copy_color orientation paper_punch paper_binding : string) : ImageDraw :=
  let img :=
    if String.eqb copy_color "black_and_white" then convert_L img else img in
  let img :=
    if String.eqb orientation "landscape" then rotate_90_expand img else img in
  let draw := Draw img in
  let '(width, height) := size img in
  let draw :=
    if String.eqb paper_punch "two_holes" then
      let draw := ellipse (10, height / 3 - 10, 30, height / 3 + 10) grey draw in
      ellipse (10, 2 * height / 3 - 10, 30, 2 * height / 3 + 10) grey draw
    else if String.eqb paper_punch "three_holes" then
      let draw := ellipse (10, height / 4 - 10, 30, height / 4 + 10) grey draw in
      let draw := ellipse (10, height / 2 - 10, 30, height / 2 + 10) grey draw in
      ellipse (10, 3 * height / 4 - 10, 30, 3 * height / 4 + 10) grey draw
    else draw in
  if String.eqb paper_binding "corner_staple"
  then polygon staple_coords grey draw
  else draw.

End Drawing.

(** ** Python strings *)

(** [c.lower()] on one character of 7-bit text.  Python lowers letters
    beyond ASCII too; here such a character is left as it is, which makes
    no difference to the comparison with the eight extensions of the
    handler, all of them ASCII. *)
Definition lower_ascii (c : ascii) : ascii :=
  let n := nat_of_ascii c in
  if bool_decide (65 ≤ n ≤ 90)%nat then ascii_of_nat (n + 32) else c.

(** [s.lower()], exact on 7-bit text *)
Fixpoint lower (s : string) : string :=
  match s with
  | EmptyString => EmptyString
  | String c s' => String (lower_ascii c) (lower s')
  end.

(** [s.split(sep)] for a one-character separator: never empty, and
    [sep.join(s.split(sep))] is [s]. *)
Fixpoint split (sep : ascii) (s : string) : list string :=
  match s with
  | EmptyString => [EmptyString]
  | String c s' =>
      if Ascii.eqb c sep then EmptyString :: split sep s'
      else match split sep s' with
           | [] => [String c EmptyString]
           | part :: parts => String c part :: parts
           end
  end.

(** [l[0]] and [l[-1]] for the lists [split] returns. *)
Definition first_part (l : list string) : string := default EmptyString (head l).
Definition last_part (l : list string) : string := default EmptyString (last l).

(** ** The collaborators *)

(** [os.path], whose functions depend on the platform. *)
Class OsPath := {
  path_join : string → string → string;
  path_basename : string → string;
  path_splitext : string → string * string;
  path_abspath : string → string
}.

(** What the libraries and the machine do behind the handler.  A codec or
    converter that returns [None] has raised. *)
Class Host := {
  (** [Image.open(path)], from the bytes of the file *)
  image_open : list byte → option Image;
  (** the bytes [img.save(path)] writes; the format follows the path's
      extension *)
  image_save : string → Image → option (list byte);
  (** [Word.Application]: open a document and [SaveAs] format 17 *)
  word_save_as_pdf : list byte → option (list byte);
  (** [PowerPoint.Application]: open a presentation and [SaveAs] format 32 *)
  powerpoint_save_as_pdf : list byte → option (list byte);
  (** [fitz.open(path)], then for each page what
      [page.get_pixmap(dpi=150)] saves under a [.jpg] name *)
  pdf_pixmaps : list byte → option (list (list byte));
  (** whether a file can be created or truncated at an absolute path *)
  writable : string → bool
}.

(** ** Files and exceptions *)

Inductive Exn :=
  | OSError                  (* open(..., "wb") and other writes *)
  | FileNotFoundError
  | SameFileError            (* shutil.copyfile onto the source *)
  | UnidentifiedImageError   (* Image.open *)
  | SaveError                (* img.save: unknown extension, unsupported mode *)
  | COMError                 (* the office application failed *)
  | RuntimeError             (* raised by convert_to_pdf *)
  | FileDataError.           (* fitz.open *)

(** The disk: file contents by absolute path. *)
Abbreviation FS := (gmap string (list byte)).

(** A computation reads and writes the disk and either returns or raises;
    what it wrote before raising stays written. *)
Definition M (A : Type) : Type := FS → (Exn + A) * FS.

Definition raise {A} (e : Exn) : M A := λ fs, (inl e, fs).

#[export] Instance M_ret : MRet M := λ A a fs, (inr a, fs).

#[export] Instance M_bind : MBind M := λ A B k m fs,
  match m fs with
  | (inr a, fs') => k a fs'
  | (inl e, fs') => (inl e, fs')
  end.

Definition ret {A} (a : A) : M A := mret a.

(** [try: m except Exception as e: handler(e)] *)
Definition try_except {A} (m : M A) (handler : Exn → M A) : M A :=
  λ fs,
    match m fs with
    | (inl e, fs') => handler e fs'
    | r => r
    end.

(** [None] raises [e]. *)
Definition or_raise {A} (e : Exn) (o : option A) : M A :=
  match o with
  | Some a => ret a
  | None => raise e
  end.

Definition UPLOAD_FOLDER : string := "uploaded_files".
Definition IMAGE_FOLDER : string := "pdf_images".

(** A page given by its markup, or the slider page of
    [generate_html_response], given by the [src] of its [img] elements in
    order. *)
Inductive Response :=
  | HTMLResponse (content : string)
  | Slider (srcs : list string).

Record Request := mkRequest {
  filename : string;
  file : list byte;
  copy_color : string;
  orientation : string;
  paper_punch : string;
  paper_binding : string
}.

Section Handler.
Context {rasterizer : Rasterizer} {os_path : OsPath} {host : Host}.

Definition fs_read (path : string) : M (list byte) :=
  λ fs, or_raise FileNotFoundError (fs !! path_abspath path) fs.

Definition fs_write (path : string) (content : list byte) : M unit :=
  λ fs,
    if writable (path_abspath path)
    then (inr (), <[path_abspath path := content]> fs)
    else (inl OSError, fs).

(** [shutil.copyfile(src, dst)] *)
Definition copyfile (src dst : string) : M unit :=
  if bool_decide (path_abspath src = path_abspath dst) then raise SameFileError
  else content ← fs_read src; fs_write dst content.

(** The office applications read the document and write the PDF through
    the same disk; whatever goes wrong inside the [try] comes out as a
    [RuntimeError].  [Close] and [Quit], which come after [SaveAs], are
    taken to succeed: a failure there would be a [RuntimeError] with the
    PDF already written. *)
Definition convert_to_pdf (input_path output_path : string) : M string :=
  let file_extension := lower (last_part (split "." input_path)) in
  let input_path := path_abspath input_path in
  let output_path := path_abspath output_path in
  try_except
    (if bool_decide (file_extension ∈ ["doc"; "docx"]) then
       doc ← fs_read input_path;
       pdf ← or_raise COMError (word_save_as_pdf doc);
       fs_write output_path pdf
     else if bool_decide (file_extension ∈ ["ppt"; "pptx"]) then
       presentation ← fs_read input_path;
       pdf ← or_raise COMError (powerpoint_save_as_pdf presentation);
       fs_write output_path pdf
     else ret ())
    (λ e, raise RuntimeError);;
  ret output_path.

(** [img.save] is taken as encoding followed by one write.  Pillow opens
    the output file before it encodes, so a save that fails half-way can
    leave an output file that was there before truncated; the model
    leaves it as it was. *)
Definition process_image (image_path : string)
    (copy_color orientation paper_punch paper_binding : string) : M string :=
  content ← fs_read image_path;
  img ← or_raise UnidentifiedImageError (image_open content);
  let draw := annotate img copy_color orientation paper_punch paper_binding in
  let transformed_image_path :=
    path_join IMAGE_FOLDER ("processed_" +:+ path_basename image_path) in
  saved ← or_raise SaveError (image_save transformed_image_path (im draw));
  fs_write transformed_image_path saved;;
  ret transformed_image_path.

Definition generate_html_response (image_files : list string) : Response :=
  Slider ((λ image_file, "/static/" +:+ path_basename image_file) <$> image_files).

(** The loop over the pages of the PDF: [pages] are the pixmaps still to
    be saved, the first of them of page [page_num]. *)
Fixpoint convert_pages (pdf_path : string)
    (copy_color orientation paper_punch paper_binding : string)
    (page_num : nat) (pages : list (list byte))
    (converted_images : list string) : M (list string) :=
  match pages with
  | [] => ret converted_images
  | pix :: pages =>
      let image_path :=
        path_join IMAGE_FOLDER
          (first_part (split "." (path_basename pdf_path))
             +:+ "_page_" +:+ pretty (page_num + 1)%nat +:+ ".jpg") in
      fs_write image_path pix;;
      processed ← process_image image_path
                    copy_color orientation paper_punch paper_binding;
      convert_pages pdf_path copy_color orientation paper_punch paper_binding
        (S page_num) pages (converted_images ++ [processed])
  end.

Definition upload_file (req : Request) : M Response :=
  let file_extension := lower (last_part (split "." (filename req))) in
  let uploaded_file_path := path_join UPLOAD_FOLDER (filename req) in
  (* Save the uploaded file *)
  fs_write uploaded_file_path (file req);;
  (* Handle file conversion to PDF if needed; [inl] is a response returned
     from inside the branch, [inr] the PDF to go on with *)
  branch ←
    (if bool_decide (file_extension ∈ ["doc"; "docx"; "ppt"; "pptx"]) then
       let pdf_path :=
         path_join UPLOAD_FOLDER (fst (path_splitext (filename req)) +:+ ".pdf") in
       pdf_path ← convert_to_pdf uploaded_file_path pdf_path;
       ret (inr pdf_path)
     else if bool_decide (file_extension = "pdf") then
       ret (inr uploaded_file_path)
     else if bool_decide (file_extension ∈ ["jpg"; "jpeg"; "png"]) then
       let image_path := path_join IMAGE_FOLDER (filename req) in
       copyfile uploaded_file_path image_path;;
       processed ← process_image image_path (copy_color req) (orientation req)
                     (paper_punch req) (paper_binding req);
       ret (inl (generate_html_response [processed]))
     else
       ret (inl (HTMLResponse "<h1>Unsupported file type!</h1>")));
  match branch with
  | inl response => ret response
  | inr pdf_path =>
      (* Convert PDF to images *)
      pdf ← fs_read pdf_path;
      pages ← or_raise FileDataError (pdf_pixmaps pdf);
      converted_images ←
        convert_pages pdf_path (copy_color req) (orientation req)
          (paper_punch req) (paper_binding req) 0 pages [];
      ret (generate_html_response converted_images)
  end.

End Handler.

(** ** The route *)

(** What a client gets back: the outcome of the handler, or FastAPI's
    validation error (HTTP 422) when a parameter could not be bound. *)
Inductive Reply :=
  | Ran (outcome : Exn + Response)
  | RequestValidationError.

(** A request with an option left empty. *)
Definition missing_option (req : Request) : Prop :=
  copy_color req = EmptyString ∨ orientation req = EmptyString ∨
  paper_punch req = EmptyString ∨ paper_binding req = EmptyString.

(** [@app.post("/upload/")] over [upload_file]: the four options are
    required form fields, [Form(...)], and FastAPI takes an empty value of
    such a field for a missing one: it answers with the validation error
    and does not call the handler. *)
Definition upload_route {rasterizer : Rasterizer} {os_path : OsPath}
    {host : Host} (req : Request) (fs : FS) : Reply * FS :=
  if bool_decide (missing_option req) then (RequestValidationError, fs)
  else let '(outcome, fs') := upload_file req fs in (Ran outcome, fs').

(** ** The pipeline as the specification words it *)

(** The values the upload form offers for each field. *)
Definition copy_color_domain : list string := ["black_and_white"; "color"].
Definition orientation_domain : list string := ["portrait"; "landscape"].
Definition paper_punch_domain : list string := ["no_hole"; "two_holes"; "three_holes"].
Definition paper_binding_domain : list string := ["no_staple"; "corner_staple"].

Definition valid_options (req : Request) : Prop :=
  copy_color req ∈ copy_color_domain ∧
  orientation req ∈ orientation_domain ∧
  paper_punch req ∈ paper_punch_domain ∧
  paper_binding req ∈ paper_binding_domain.

(** A filled circle, as the bounding box Pillow wants for it. *)
Definition circle (cx cy r : Z) (fill : Z * Z * Z) : DrawCall :=
  Ellipse (cx - r, cy - r, cx + r, cy + r) fill.

(** Step 1, color reduction. *)
Definition color_step (copy_color : string) (img : Image) : Image :=
  if bool_decide (copy_color = "black_and_white") then convert_L img else img.

(** Step 2, orientation. *)
Definition orientation_step (orientation : string) (img : Image) : Image :=
  if bool_decide (orientation = "landscape") then rotate_90_expand img else img.

(** Step 3, the punch marks for a canvas [h] pixels tall; the quotients
    are rounded down. *)
Definition punch_marks (paper_punch : string) (h : Z) : list DrawCall :=
  if bool_decide (paper_punch = "two_holes") then
    [circle 20 (h / 3) 10 grey; circle 20 (2 * h / 3) 10 grey]
  else if bool_decide (paper_punch = "three_holes") then
    [circle 20 (h / 4) 10 grey; circle 20 (h / 2) 10 grey;
     circle 20 (3 * h / 4) 10 grey]
  else [].

(** Step 4, the binding mark. *)
Definition binding_mark (paper_binding : string) : list DrawCall :=
  if bool_decide (paper_binding = "corner_staple")
  then [Polygon [(35, 40); (75, 30); (77, 35); (37, 45)] grey]
  else [].

Definition is_ellipse (c : DrawCall) : bool :=
  match c with Ellipse _ _ => true | Polygon _ _ => false end.

Definition is_polygon (c : DrawCall) : bool :=
  match c with Polygon _ _ => true | Ellipse _ _ => false end.

(** The corners of a call's shape. *)
Definition corners (c : DrawCall) : list (Z * Z) :=
  match c with
  | Ellipse (x0, y0, x1, y1) _ => [(x0, y0); (x1, y1)]
  | Polygon xy _ => xy
  end.

(** A point that names a pixel of the canvas. *)
Definition on_canvas (img : Image) (p : Z * Z) : Prop :=
  0 ≤ p.1 < Z.of_nat (width img) ∧ 0 ≤ p.2 < Z.of_nat (height img).

Section Steps.
Context {rasterizer : Rasterizer}.

Definition draw_call (draw : ImageDraw) (c : DrawCall) : ImageDraw :=
  match c with
  | Ellipse xy fill => ellipse xy fill draw
  | Polygon xy fill => polygon xy fill draw
  end.

(** The calls made one after the other on the same context. *)
Definition draw_all (cs : list DrawCall) (draw : ImageDraw) : ImageDraw :=
  foldl draw_call draw cs.

Definition punch_step (paper_punch : string) (draw : ImageDraw) : ImageDraw :=
  draw_all (punch_marks paper_punch (Z.of_nat (height (im draw)))) draw.

Definition binding_step (paper_binding : string) (draw : ImageDraw) : ImageDraw :=
  draw_all (binding_mark paper_binding) draw.

(** color → orientation → punch marks → binding mark *)
Definition annotate_steps (img : Image)
    (copy_color orientation paper_punch paper_binding : string) : ImageDraw :=
  binding_step paper_binding
    (punch_step paper_punch
       (Draw (orientation_step orientation (color_step copy_color img)))).

End Steps.

(** ** Vocabulary for the properties of the code *)

(** A sample in 0..255, in each band. *)
Definition eight_bit (p : Pixel) : Prop :=
  match p with
  | PL v => 0 ≤ v ≤ 255
  | PRGB r g b => 0 ≤ r ≤ 255 ∧ 0 ≤ g ≤ 255 ∧ 0 ≤ b ≤ 255
  end.

Definition fill_of (c : DrawCall) : Z * Z * Z :=
  match c with
  | Ellipse _ fill => fill
  | Polygon _ fill => fill
  end.

(** Whether the shape of a call covers the pixel [(x, y)]. *)
Definition covers {rasterizer : Rasterizer} (c : DrawCall) (x y : nat) : bool :=
  match c with
  | Ellipse xy _ => ellipse_mask xy (Z.of_nat x) (Z.of_nat y)
  | Polygon xy _ => polygon_mask xy (Z.of_nat x) (Z.of_nat y)
  end.

(** Whether a character occurs in a string. *)
Fixpoint occurs (c : ascii) (s : string) : bool :=
  match s with
  | EmptyString => false
  | String c' s' => Ascii.eqb c' c || occurs c s'
  end.

(** A string of 7-bit characters. *)
Fixpoint is_ascii (s : string) : bool :=
  match s with
  | EmptyString => true
  | String c s' => (nat_of_ascii c <? 128)%nat && is_ascii s'
  end.

(** [file.filename.split('.')[-1].lower()] *)
Definition extension_of (name : string) : string :=
  lower (last_part (split "." name)).

Definition office_extensions : list string := ["doc"; "docx"; "ppt"; "pptx"].
Definition image_extensions : list string := ["jpg"; "jpeg"; "png"].

(** Where [process_image] saves its result. *)
Definition processed_path {os_path : OsPath} (image_path : string) : string :=
  path_join IMAGE_FOLDER ("processed_" +:+ path_basename image_path).

(** Where [upload_file] saves the pixmap of page [page_num] (counted
    from 0) of a PDF. *)
Definition page_image_path {os_path : OsPath} (pdf_path : string)
    (page_num : nat) : string :=
  path_join IMAGE_FOLDER
    (first_part (split "." (path_basename pdf_path))
       +:+ "_page_" +:+ pretty (page_num + 1)%nat +:+ ".jpg").

(** Where [upload_file] saves the upload. *)
Definition upload_path {os_path : OsPath} (req : Request) : string :=
  path_join UPLOAD_FOLDER (filename req).

(** ** Instances to run the program on *)

(** *** [posixpath] *)

Definition startswith (prefix s : string) : bool := String.prefix prefix s.

Definition endswith_sep (s : string) : bool :=
  bool_decide (last (list_ascii_of_string s) = Some "/"%char).

(** [sep.join(parts)] *)
Fixpoint str_join (sep : string) (parts : list string) : string :=
  match parts with
  | [] => EmptyString
  | [part] => part
  | part :: parts => part +:+ sep +:+ str_join sep parts
  end.

Definition posix_join (a b : string) : string :=
  if startswith "/" b then b
  else if bool_decide (a = EmptyString) || endswith_sep a then a +:+ b
  else a +:+ "/" +:+ b.

Definition posix_basename (p : string) : string :=
  last_part (split "/" p).

(** The dots a name starts with, and the rest of it. *)
Fixpoint leading_dots (s : string) : string * string :=
  match s with
  | String "."%char s' => let '(dots, rest) := leading_dots s' in (String "." dots, rest)
  | _ => (EmptyString, s)
  end.

(** The extension starts at the last dot of the base name, leading dots
    not counted. *)
Definition posix_splitext (p : string) : string * string :=
  let comps := split "/" p in
  let head := str_join "/" (removelast comps ++ [EmptyString]) in
  let '(dots, rest) := leading_dots (last_part comps) in
  match split "." rest with
  | [] | [_] => (p, EmptyString)
  | parts => (head +:+ dots +:+ str_join "." (removelast parts),
              "." +:+ last_part parts)
  end.

Definition posix_normpath (path : string) : string :=
  if bool_decide (path = EmptyString) then "." else
  let initial_slashes :=
    if startswith "//" path && negb (startswith "///" path) then "//"
    else if startswith "/" path then "/" else EmptyString in
  let new_comps :=
    foldl (λ new_comps comp,
             if bool_decide (comp ∈ [EmptyString; "."]) then new_comps
             else if negb (bool_decide (comp = ".."))
                     || (bool_decide (initial_slashes = EmptyString)
                         && bool_decide (new_comps = []))
                     || bool_decide (last new_comps = Some "..")
             then new_comps ++ [comp]
             else removelast new_comps)
          [] (split "/" path) in
  let path := initial_slashes +:+ str_join "/" new_comps in
  if bool_decide (path = EmptyString) then "." else path.

Definition posix_abspath (cwd path : string) : string :=
  posix_normpath (if startswith "/" path then path else posix_join cwd path).

(** [os.path] on a POSIX system, for a process started in [cwd]. *)
Definition posixpath (cwd : string) : OsPath :=
  {| path_join := posix_join;
     path_basename := posix_basename;
     path_splitext := posix_splitext;
     path_abspath := posix_abspath cwd |}.

(** *** A rasterizer on exact integer geometry *)

(** Inside the ellipse inscribed in the box, both axes scaled by two to
    stay in the integers. *)
Definition inscribed_ellipse (xy : Z * Z * Z * Z) (x y : Z) : bool :=
  let '(x0, y0, x1, y1) := xy in
  let a := x1 - x0 in
  let b := y1 - y0 in
  let dx := 2 * x - (x0 + x1) in
  let dy := 2 * y - (y0 + y1) in
  (x0 <=? x) && (x <=? x1) && (y0 <=? y) && (y <=? y1)
  && (dx * dx * (b * b) + dy * dy * (a * a) <=? a * a * (b * b)).

(** On the same side of every edge: inside a convex polygon. *)
Definition inside_convex (xy : list (Z * Z)) (x y : Z) : bool :=
  let edges := zip xy (drop 1 xy ++ take 1 xy) in
  let side : (Z * Z) * (Z * Z) → Z :=
    λ e, let '((ax, ay), (bx, by_)) := e in
         (bx - ax) * (y - ay) - (by_ - ay) * (x - ax) in
  forallb (λ e, 0 <=? side e) edges || forallb (λ e, side e <=? 0) edges.

Definition exact_rasterizer : Rasterizer :=
  {| ellipse_mask := inscribed_ellipse; polygon_mask := inside_convex |}.

(** *** A host with a raw one-band image format *)

(** A file is a width byte followed by the 8-bit samples, row after row. *)
Definition raw_open (content : list byte) : option Image :=
  match content with
  | [] => None
  | wb :: samples =>
      let w := N.to_nat (Byte.to_N wb) in
      if bool_decide (w = 0%nat) then None
      else if bool_decide ((length samples mod w)%nat = 0%nat) then
        Some {| mode := ModeL; width := w; height := (length samples / w)%nat;
                data := (λ b, PL (Z.of_N (Byte.to_N b))) <$> samples |}
      else None
  end.

Definition raw_sample (p : Pixel) : option byte :=
  match p with
  | PL v => if bool_decide (0 ≤ v < 256) then Byte.of_N (Z.to_N v) else None
  | PRGB _ _ _ => None
  end.

Definition raw_save (path : string) (img : Image) : option (list byte) :=
  wb ← Byte.of_N (N.of_nat (width img));
  samples ← mapM raw_sample (data img);
  Some (wb :: samples).

(** The office applications hand the document over as it is, and a
    document has one page, whose pixmap is its own content. *)
Definition raw_host : Host :=
  {| image_open := raw_open;
     image_save := raw_save;
     word_save_as_pdf := Some;
     powerpoint_save_as_pdf := Some;
     pdf_pixmaps := λ pdf, Some [pdf];
     writable := λ _, true |}.

(** ** What the handler makes of the option values *)

(** The handler compares each field with the values it acts on and with
    nothing else; these are the values of the domain a field's value is
    handled as. *)
Definition effective_copy_color (v : string) : string :=
  if bool_decide (v = "black_and_white") then v else "color".

Definition effective_orientation (v : string) : string :=
  if bool_decide (v = "landscape") then v else "portrait".

Definition effective_paper_punch (v : string) : string :=
  if bool_decide (v ∈ ["two_holes"; "three_holes"]) then v else "no_hole".

Definition effective_paper_binding (v : string) : string :=
  if bool_decide (v = "corner_staple") then v else "no_staple".

Definition effective_request (req : Request) : Request :=
  {| filename := filename req;
     file := file req;
     copy_color := effective_copy_color (copy_color req);
     orientation := effective_orientation (orientation req);
     paper_punch := effective_paper_punch (paper_punch req);
     paper_binding := effective_paper_binding (paper_binding req) |}.


(** A computation that leaves every file of the disk in place, with
    whatever content. *)
Definition keeps_files {A} (m : M A) : Prop :=
  ∀ (fs : FS) (path : string),
    is_Some (fs !! path) → is_Some ((m fs).2 !! path).

(** *** Sample inputs *)

(** [Image.new(mode, (w, h), "white")] *)
Definition white_image (m : Mode) (w h : nat) : Image :=
  {| mode := m; width := w; height := h;
     data := replicate (w * h) (getcolor (255, 255, 255) m) |}.

(** A 3 by 2 colour image, one primary per pixel of the first row. *)
Definition rgb_3x2 : Image :=
  {| mode := ModeRGB; width := 3; height := 2;
     data := [PRGB 255 0 0; PRGB 0 255 0; PRGB 0 0 255;
              PRGB 10 20 30; PRGB 40 50 60; PRGB 70 80 90] |}.

(** A 3 by 2 raw file with the samples 1 to 6. *)
Definition raw_3x2 : list byte := [x03; x01; x02; x03; x04; x05; x06].

(** A picture sent with a colour mode the form does not offer. *)
Definition sepia_upload : Request :=
  {| filename := "a.png"; file := raw_3x2;
     copy_color := "sepia"; orientation := "portrait";
     paper_punch := "no_hole"; paper_binding := "no_staple" |}.

(** A file of a type the handler has no branch for. *)
Definition text_upload : Request :=
  {| filename := "notes.txt"; file := [x68; x69];
     copy_color := "color"; orientation := "portrait";
     paper_punch := "no_hole"; paper_binding := "no_staple" |}.

(** The process runs in [/srv/app]. *)
Definition sample_os_path : OsPath := posixpath "/srv/app".

(** Two disks that hold the same picture, in different folders, and
    agree on nothing else. *)
Definition disk_one : FS :=
  {[ "/srv/app/pdf_images/a.png" := raw_3x2 ]}.

Definition disk_two : FS :=
  {[ "/srv/app/uploaded_files/a.png" := raw_3x2;
     "/srv/app/uploaded_files/old.pdf" := [x25; x50; x44; x46] ]}.

(** An upload whose file name is an absolute path. *)
Definition absolute_upload : Request :=
  {| filename := "/tmp/notes.txt"; file := [x68; x69];
     copy_color := "color"; orientation := "portrait";
     paper_punch := "no_hole"; paper_binding := "no_staple" |}.

(** *** A host whose PDFs have pages *)

(** The chunks of a byte string between separators; none for the empty
    string. *)
Definition chunks (sep : byte) (content : list byte) : list (list byte) :=
  foldr (λ b acc,
           if Byte.eqb b sep then [] :: acc
           else match acc with
                | [] => [[b]]
                | chunk :: acc => (b :: chunk) :: acc
                end)
        [] content.

(** A PDF is the four bytes [%PDF] followed by the pixmaps of its pages,
    a form feed between one and the next. *)
Definition paged_pdf_pixmaps (content : list byte) : option (list (list byte)) :=
  match content with
  | x25 :: x50 :: x44 :: x46 :: pages => Some (chunks x0c pages)
  | _ => None
  end.

Definition paged_host : Host :=
  {| image_open := raw_open;
     image_save := raw_save;
     word_save_as_pdf := Some;
     powerpoint_save_as_pdf := Some;
     pdf_pixmaps := paged_pdf_pixmaps;
     writable := λ _, true |}.

(** The raw host on a disk that takes no writes. *)
Definition read_only_host : Host :=
  {| image_open := raw_open;
     image_save := raw_save;
     word_save_as_pdf := Some;
     powerpoint_save_as_pdf := Some;
     pdf_pixmaps := λ pdf, Some [pdf];
     writable := λ _, false |}.

(** A PDF of two pages, each the 3 by 2 raw picture. *)
Definition two_page_pdf_upload : Request :=
  {| filename := "scan.pdf";
     file := [x25; x50; x44; x46] ++ raw_3x2 ++ [x0c] ++ raw_3x2;
     copy_color := "color"; orientation := "landscape";
     paper_punch := "two_holes"; paper_binding := "corner_staple" |}.

(** A PDF without pages. *)
Definition empty_pdf_upload : Request :=
  {| filename := "empty.PDF"; file := [x25; x50; x44; x46];
     copy_color := "color"; orientation := "portrait";
     paper_punch := "no_hole"; paper_binding := "no_staple" |}.

(** A text sent under a PDF's name. *)
Definition fake_pdf_upload : Request :=
  {| filename := "notes.pdf"; file := [x68; x69];
     copy_color := "color"; orientation := "portrait";
     paper_punch := "no_hole"; paper_binding := "no_staple" |}.

(** An empty file sent under a picture's name. *)
Definition fake_image_upload : Request :=
  {| filename := "a.JPG"; file := [];
     copy_color := "color"; orientation := "portrait";
     paper_punch := "no_hole"; paper_binding := "no_staple" |}.

(** A picture whose file name is an absolute path. *)
Definition absolute_image_upload : Request :=
  {| filename := "/srv/app/pdf_images/a.png"; file := raw_3x2;
     copy_color := "color"; orientation := "portrait";
     paper_punch := "no_hole"; paper_binding := "no_staple" |}.

(** A document whose file name is its extension and nothing else. *)
Definition dotless_doc_upload : Request :=
  {| filename := "doc"; file := [x68; x69];
     copy_color := "color"; orientation := "portrait";
     paper_punch := "no_hole"; paper_binding := "no_staple" |}.

(** An upload whose file name climbs out of the folder. *)
Definition traversal_upload : Request :=
  {| filename := "../evil.txt"; file := [x68; x69];
     copy_color := "color"; orientation := "portrait";
     paper_punch := "no_hole"; paper_binding := "no_staple" |}.

(** * Properties *)

(** ** Buffers and images *)

Lemma eqb_decide (a b : string) : String.eqb a b = bool_decide (a = b).
Proof.
  destruct (String.eqb_spec a b) as [Heq | Hne].
  - by rewrite bool_decide_eq_true_2.
  - by rewrite bool_decide_eq_false_2.
Qed.

Lemma tabulate_length w h f : length (tabulate w h f) = (w * h)%nat.
Proof. unfold tabulate. by rewrite length_fmap, length_seq. Qed.

Lemma tabulate_lookup w h f (x y : nat) :
  (x < w)%nat → (y < h)%nat →
  tabulate w h f !! (y * w + x)%nat = Some (f x y).
Proof.
  intros Hx Hy. unfold tabulate.
  rewrite list_lookup_fmap, lookup_seq_lt by nia. simpl.
  rewrite Nat.add_comm, Nat.Div0.mod_add, Nat.mod_small by done.
  rewrite Nat.div_add by lia.
  rewrite Nat.div_small by done. done.
Qed.

Lemma getpixel_is_Some img (x y : nat) :
  length (data img) = (width img * height img)%nat →
  (x < width img)%nat → (y < height img)%nat →
  is_Some (getpixel img x y).
Proof.
  intros Hlen Hx Hy. unfold getpixel.
  rewrite !bool_decide_eq_true_2 by done. simpl.
  apply lookup_lt_is_Some. nia.
Qed.

Lemma convert_L_mode img : mode (convert_L img) = ModeL.
Proof. unfold convert_L. by destruct (mode img) eqn:Hm. Qed.

Lemma convert_L_size img :
  width (convert_L img) = width img ∧ height (convert_L img) = height img.
Proof. unfold convert_L. by destruct (mode img). Qed.

Lemma convert_L_length img :
  length (data (convert_L img)) = length (data img).
Proof.
  unfold convert_L. destruct (mode img); [done |].
  simpl. by rewrite length_fmap.
Qed.

Lemma convert_L_well_formed img : well_formed img → well_formed (convert_L img).
Proof.
  intros [Hlen Hpx]. unfold convert_L.
  destruct (mode img) eqn:Hm; [by split; [| rewrite Hm] |].
  split; simpl; [by rewrite length_fmap |].
  apply Forall_fmap, Forall_forall. by intros [v | r g b] _.
Qed.

Lemma color_step_size cc img :
  width (color_step cc img) = width img ∧
  height (color_step cc img) = height img.
Proof. unfold color_step. case_bool_decide; [apply convert_L_size | done]. Qed.

Lemma color_step_length cc img :
  length (data (color_step cc img)) = length (data img).
Proof. unfold color_step. case_bool_decide; [apply convert_L_length | done]. Qed.

Lemma orientation_step_size o img :
  width (orientation_step o img)
    = (if bool_decide (o = "landscape") then height img else width img) ∧
  height (orientation_step o img)
    = (if bool_decide (o = "landscape") then width img else height img).
Proof. unfold orientation_step. by case_bool_decide. Qed.

Lemma orientation_step_portrait img : orientation_step "portrait" img = img.
Proof. reflexivity. Qed.

Lemma orientation_step_landscape img :
  orientation_step "landscape" img = rotate_90_expand img.
Proof. reflexivity. Qed.

(** The quarter turn moves every pixel and loses none. *)
Lemma rotate_90_expand_getpixel img (x y : nat) :
  length (data img) = (width img * height img)%nat →
  (x < width img)%nat → (y < height img)%nat →
  getpixel (rotate_90_expand img) y (width img - 1 - x) = getpixel img x y.
Proof.
  intros Hlen Hx Hy.
  destruct (getpixel_is_Some img x y Hlen Hx Hy) as [p Hp].
  unfold getpixel at 1. simpl.
  rewrite !bool_decide_eq_true_2 by lia. simpl.
  rewrite tabulate_lookup by lia.
  replace (width img - 1 - (width img - 1 - x))%nat with x by lia.
  by rewrite Hp.
Qed.

Lemma rotate_90_expand_well_formed img :
  well_formed img → well_formed (rotate_90_expand img).
Proof.
  intros [Hlen Hpx]. split; simpl.
  - apply tabulate_length.
  - unfold tabulate. apply Forall_fmap, Forall_forall. intros i _. simpl.
    unfold getpixel. case_match; [| by destruct (mode img)].
    destruct (data img !! _) as [p |] eqn:Hp; simpl.
    + by eapply Forall_lookup_1.
    + by destruct (mode img).
Qed.

Lemma getcolor_has_mode color m : pixel_has_mode m (getcolor color m).
Proof. destruct color as [[r g] b]. by destruct m. Qed.

Lemma paint_well_formed mask ink img :
  pixel_has_mode (mode img) ink → well_formed img →
  well_formed (paint mask ink img).
Proof.
  intros Hink [Hlen Hpx]. split; simpl.
  - by rewrite length_imap.
  - apply Forall_lookup. intros i p.
    rewrite list_lookup_imap_Some. intros (q & Hq & ->).
    case_match; [done |]. by eapply Forall_lookup_1.
Qed.

Lemma color_step_well_formed cc img :
  well_formed img → well_formed (color_step cc img).
Proof.
  unfold color_step. case_bool_decide; [apply convert_L_well_formed | done].
Qed.

Lemma orientation_step_well_formed o img :
  well_formed img → well_formed (orientation_step o img).
Proof.
  unfold orientation_step.
  case_bool_decide; [apply rotate_90_expand_well_formed | done].
Qed.

Section Annotator.
Context {rasterizer : Rasterizer}.

Lemma draw_call_well_formed d c :
  well_formed (im d) → well_formed (im (draw_call d c)).
Proof.
  destruct c; simpl; apply paint_well_formed, getcolor_has_mode.
Qed.

Lemma draw_all_well_formed cs d :
  well_formed (im d) → well_formed (im (draw_all cs d)).
Proof.
  revert d. induction cs as [| c cs IH]; intros d Hwf; [done |].
  unfold draw_all in *. simpl. by apply IH, draw_call_well_formed.
Qed.

Lemma draw_call_calls d c : calls (draw_call d c) = calls d ++ [c].
Proof. by destruct c. Qed.

Lemma draw_call_size d c :
  width (im (draw_call d c)) = width (im d) ∧
  height (im (draw_call d c)) = height (im d).
Proof. by destruct c. Qed.

Lemma draw_all_calls cs d : calls (draw_all cs d) = calls d ++ cs.
Proof.
  revert d. induction cs as [| c cs IH]; intros d; simpl.
  - by rewrite app_nil_r.
  - unfold draw_all in *. simpl. rewrite IH, draw_call_calls.
    by rewrite <- app_assoc.
Qed.

Lemma draw_all_size cs d :
  width (im (draw_all cs d)) = width (im d) ∧
  height (im (draw_all cs d)) = height (im d).
Proof.
  revert d. induction cs as [| c cs IH]; intros d; [done |].
  unfold draw_all in *. simpl.
  destruct (IH (draw_call d c)) as [-> ->]. apply draw_call_size.
Qed.

(** The body of [process_image] is the four steps, in their order. *)
Lemma annotate_is_steps img cc o pp pb :
  annotate img cc o pp pb = annotate_steps img cc o pp pb.
Proof.
  unfold annotate, annotate_steps, binding_step, punch_step,
    binding_mark, punch_marks.
  rewrite !eqb_decide.
  fold (color_step cc img).
  fold (orientation_step o (color_step cc img)).
  repeat case_bool_decide; reflexivity.
Qed.

Lemma annotate_calls img cc o pp pb :
  calls (annotate img cc o pp pb)
  = punch_marks pp (Z.of_nat (height (orientation_step o (color_step cc img))))
      ++ binding_mark pb.
Proof.
  rewrite annotate_is_steps. unfold annotate_steps, binding_step, punch_step.
  by rewrite !draw_all_calls.
Qed.

Lemma annotate_size img cc o pp pb :
  width (im (annotate img cc o pp pb))
    = width (orientation_step o (color_step cc img)) ∧
  height (im (annotate img cc o pp pb))
    = height (orientation_step o (color_step cc img)).
Proof.
  rewrite annotate_is_steps. unfold annotate_steps, binding_step, punch_step.
  destruct (draw_all_size (binding_mark pb)
    (draw_all (punch_marks pp
       (Z.of_nat (height (im (Draw (orientation_step o (color_step cc img)))))))
       (Draw (orientation_step o (color_step cc img))))) as [-> ->].
  apply draw_all_size.
Qed.

(** Whatever the options and wherever the marks fall, the annotator
    hands on a buffer of the right length and mode: drawing never leaves
    the canvas. *)
Lemma annotate_well_formed img cc o pp pb :
  well_formed img → well_formed (im (annotate img cc o pp pb)).
Proof.
  intros Hwf. rewrite annotate_is_steps.
  unfold annotate_steps, binding_step, punch_step.
  by apply draw_all_well_formed, draw_all_well_formed,
    orientation_step_well_formed, color_step_well_formed.
Qed.

Lemma punch_marks_ellipses pp h :
  filter is_ellipse (punch_marks pp h) = punch_marks pp h.
Proof. unfold punch_marks. by repeat case_bool_decide. Qed.

Lemma binding_mark_ellipses pb : filter is_ellipse (binding_mark pb) = [].
Proof. unfold binding_mark. by case_bool_decide. Qed.

Lemma punch_marks_polygons pp h : filter is_polygon (punch_marks pp h) = [].
Proof. unfold punch_marks. by repeat case_bool_decide. Qed.

End Annotator.

(** ** The annotation pipeline *)

Section Pipeline.
Context {rasterizer : Rasterizer}.

(** C1: for every image and all option values the annotator is the four
    steps in the order color reduction, orientation, punch marks, binding
    mark; the marks are drawn on the canvas the rotation step leaves, and
    the punch-mark coordinates come from that canvas's height, which for
    landscape is the width of the original. *)
Theorem C1_fixed_step_order img cc o pp pb :
  let rotated := orientation_step o (color_step cc img) in
  annotate img cc o pp pb
    = binding_step pb (punch_step pp (Draw rotated))
  ∧ calls (annotate img cc o pp pb)
    = punch_marks pp (Z.of_nat (height rotated)) ++ binding_mark pb
  ∧ height rotated
    = (if bool_decide (o = "landscape") then width img else height img).
Proof.
  intros rotated. split; [| split].
  - apply annotate_is_steps.
  - apply annotate_calls.
  - subst rotated.
    destruct (orientation_step_size o (color_step cc img)) as [_ ->].
    destruct (color_step_size cc img) as [-> ->]. done.
Qed.

(** C4: with landscape the annotated image is as wide as the source is
    tall and as tall as it is wide, and every pixel [(x, y)] of the
    portrait result is found at [(y, width - 1 - x)] of the landscape
    result, so nothing is cropped; with portrait the marks are drawn on
    the colour-reduced image as it is. *)
Theorem C4_landscape_rotation img cc pp pb :
  well_formed img →
  let landscape := im (annotate img cc "landscape" pp pb) in
  let turned := im (annotate img cc "landscape" "no_hole" "no_staple") in
  let upright := im (annotate img cc "portrait" "no_hole" "no_staple") in
  (width landscape = height img ∧ height landscape = width img)
  ∧ (∀ x y : nat, (x < width img)%nat → (y < height img)%nat →
       is_Some (getpixel upright x y) ∧
       getpixel turned y (width img - 1 - x) = getpixel upright x y)
  ∧ annotate img cc "portrait" pp pb
    = binding_step pb (punch_step pp (Draw (color_step cc img))).
Proof.
  intros [Hlen _] landscape turned upright.
  destruct (color_step_size cc img) as [Hw Hh].
  assert (Hlen' : length (data (color_step cc img))
                  = (width (color_step cc img) * height (color_step cc img))%nat)
    by (by rewrite color_step_length, Hw, Hh).
  split; [| split].
  - subst landscape.
    destruct (annotate_size img cc "landscape" pp pb) as [-> ->].
    unfold orientation_step. simpl. by split.
  - intros x y Hx Hy. subst turned upright.
    rewrite !annotate_is_steps. simpl.
    rewrite orientation_step_portrait, orientation_step_landscape, <- Hw.
    split.
    + apply getpixel_is_Some; lia.
    + apply rotate_90_expand_getpixel; lia.
  - rewrite annotate_is_steps. reflexivity.
Qed.

(** C6, as the code has it: the punch marks are neither clamped nor
    skipped; they are always the circles at the unclamped centres, and
    their bounding boxes lie on the canvas exactly when it is at least 31
    pixels wide and at least 31 (two_holes) or 41 (three_holes) pixels
    tall. *)
Theorem C6_marks_on_canvas_iff img cc o pp pb :
  pp = "two_holes" ∨ pp = "three_holes" →
  let d := annotate img cc o pp pb in
  filter is_ellipse (calls d) = punch_marks pp (Z.of_nat (height (im d)))
  ∧ (Forall (λ c, Forall (on_canvas (im d)) (corners c))
            (filter is_ellipse (calls d))
     ↔ (31 ≤ width (im d))%nat ∧
       ((if bool_decide (pp = "three_holes") then 41 else 31)
          ≤ height (im d))%nat).
Proof.
  intros Hpp d.
  assert (Hmarks : filter is_ellipse (calls d)
                   = punch_marks pp (Z.of_nat (height (im d)))).
  { subst d.
    rewrite annotate_calls, filter_app, punch_marks_ellipses,
      binding_mark_ellipses, app_nil_r.
    by destruct (annotate_size img cc o pp pb) as [_ ->]. }
  split; [done |]. rewrite Hmarks.
  generalize (im d). intros canvas.
  destruct Hpp as [-> | ->]; unfold punch_marks, circle, on_canvas; simpl.
  all: repeat setoid_rewrite Forall_cons; repeat setoid_rewrite Forall_nil.
  all: simpl; Z.to_euclidean_division_equations; lia.
Qed.

(** C8: converting to grayscale twice gives what converting once gives,
    for the conversion and for the annotator run with black_and_white
    on its own output. *)
Theorem C8_grayscale_idempotent img :
  convert_L (convert_L img) = convert_L img
  ∧ (let once :=
       im (annotate img "black_and_white" "portrait" "no_hole" "no_staple") in
     im (annotate once "black_and_white" "portrait" "no_hole" "no_staple")
     = once).
Proof.
  assert (Hidem : convert_L (convert_L img) = convert_L img).
  { unfold convert_L at 1. by rewrite convert_L_mode. }
  split; [done |]. intros once. subst once.
  rewrite !annotate_is_steps. exact Hidem.
Qed.

(** C9: annotating with landscape twice, with whatever other options,
    gives an image of the original width and height. *)
Theorem C9_rotation_twice_restores_size img cc pp pb cc' pp' pb' :
  let once := im (annotate img cc "landscape" pp pb) in
  let twice := im (annotate once cc' "landscape" pp' pb') in
  size (rotate_90_expand (rotate_90_expand img)) = size img
  ∧ size twice = size img.
Proof.
  intros once twice. split; [done |].
  subst once twice. unfold size.
  destruct (annotate_size (im (annotate img cc "landscape" pp pb))
              cc' "landscape" pp' pb') as [-> ->].
  simpl.
  destruct (color_step_size cc' (im (annotate img cc "landscape" pp pb)))
    as [-> ->].
  destruct (annotate_size img cc "landscape" pp pb) as [-> ->].
  simpl.
  by destruct (color_step_size cc img) as [-> ->].
Qed.

End Pipeline.

(** ** The upload handler *)

Lemma effective_copy_color_step v img :
  color_step (effective_copy_color v) img = color_step v img.
Proof.
  unfold color_step, effective_copy_color.
  destruct (decide (v = "black_and_white")) as [-> | Hne]; [done |].
  by rewrite !(bool_decide_eq_false_2 (v = _)).
Qed.

Lemma effective_orientation_step v img :
  orientation_step (effective_orientation v) img = orientation_step v img.
Proof.
  unfold orientation_step, effective_orientation.
  destruct (decide (v = "landscape")) as [-> | Hne]; [done |].
  by rewrite !(bool_decide_eq_false_2 (v = _)).
Qed.

Lemma effective_punch_marks v h :
  punch_marks (effective_paper_punch v) h = punch_marks v h.
Proof.
  unfold punch_marks, effective_paper_punch.
  destruct (decide (v = "two_holes")) as [-> | Hne2]; [done |].
  destruct (decide (v = "three_holes")) as [-> | Hne3]; [done |].
  rewrite (bool_decide_eq_false_2 (v ∈ _))
    by (rewrite !elem_of_cons, elem_of_nil; tauto).
  by rewrite !(bool_decide_eq_false_2 (v = _)).
Qed.

Lemma effective_binding_mark v :
  binding_mark (effective_paper_binding v) = binding_mark v.
Proof.
  unfold binding_mark, effective_paper_binding.
  destruct (decide (v = "corner_staple")) as [-> | Hne]; [done |].
  by rewrite !(bool_decide_eq_false_2 (v = _)).
Qed.

Lemma effective_request_valid req : valid_options (effective_request req).
Proof.
  unfold valid_options, effective_request, effective_copy_color,
    effective_orientation, effective_paper_punch, effective_paper_binding,
    copy_color_domain, orientation_domain, paper_punch_domain,
    paper_binding_domain.
  simpl. repeat split; case_bool_decide; subst;
    rewrite ?elem_of_cons in *; tauto.
Qed.

Lemma effective_request_id req : valid_options req → effective_request req = req.
Proof.
  destruct req as [fn f cc o pp pb].
  unfold valid_options, effective_request, effective_copy_color,
    effective_orientation, effective_paper_punch, effective_paper_binding,
    copy_color_domain, orientation_domain, paper_punch_domain,
    paper_binding_domain.
  simpl. intros (Hcc & Ho & Hpp & Hpb).
  f_equal; case_bool_decide; try done.
  all: set_unfold; intuition congruence.
Qed.

Lemma bind_run {A B} (m : M A) (k : A → M B) (fs : FS) :
  (m ≫= k) fs
  = match m fs with
    | (inr a, fs') => k a fs'
    | (inl e, fs') => (inl e, fs')
    end.
Proof. reflexivity. Qed.

(** Two computations that agree step by step agree. *)
Lemma bind_ext {A B} (m1 m2 : M A) (k1 k2 : A → M B) :
  (∀ fs, m1 fs = m2 fs) → (∀ a fs, k1 a fs = k2 a fs) →
  ∀ fs, (m1 ≫= k1) fs = (m2 ≫= k2) fs.
Proof.
  intros Hm Hk fs. rewrite !bind_run, Hm.
  destruct (m2 fs) as [[e | a] fs']; [done | apply Hk].
Qed.

Lemma keeps_ret {A} (a : A) : keeps_files (ret a).
Proof. by intros fs path. Qed.

Lemma keeps_mret {A} (a : A) : keeps_files (mret a : M A).
Proof. by intros fs path. Qed.

Lemma keeps_raise {A} e : keeps_files (raise e : M A).
Proof. by intros fs path. Qed.

Lemma keeps_or_raise {A} e (o : option A) : keeps_files (or_raise e o).
Proof. destruct o; by intros fs path. Qed.

Lemma keeps_bind {A B} (m : M A) (k : A → M B) :
  keeps_files m → (∀ a, keeps_files (k a)) → keeps_files (m ≫= k).
Proof.
  intros Hm Hk fs path Hin. rewrite bind_run.
  specialize (Hm fs path Hin).
  destruct (m fs) as [[e | a] fs']; [done |].
  by apply Hk.
Qed.

Lemma keeps_try_except {A} (m : M A) handler :
  keeps_files m → (∀ e, keeps_files (handler e)) →
  keeps_files (try_except m handler).
Proof.
  intros Hm Hh fs path Hin. unfold try_except.
  specialize (Hm fs path Hin).
  destruct (m fs) as [[e | a] fs']; [| done].
  by apply Hh.
Qed.

Lemma keeps_if {A} (b : bool) (m1 m2 : M A) :
  keeps_files m1 → keeps_files m2 → keeps_files (if b then m1 else m2).
Proof. by destruct b. Qed.

Create HintDb keeps.
#[local] Hint Resolve keeps_ret keeps_mret keeps_raise keeps_or_raise
  keeps_bind keeps_try_except keeps_if : keeps.

Section HandlerFacts.
Context {rasterizer : Rasterizer} {os_path : OsPath} {host : Host}.

Lemma annotate_effective img cc o pp pb :
  annotate img (effective_copy_color cc) (effective_orientation o)
    (effective_paper_punch pp) (effective_paper_binding pb)
  = annotate img cc o pp pb.
Proof.
  rewrite !annotate_is_steps.
  unfold annotate_steps, binding_step, punch_step.
  by rewrite effective_copy_color_step, effective_orientation_step,
    effective_punch_marks, effective_binding_mark.
Qed.

Lemma process_image_effective image_path cc o pp pb (fs : FS) :
  process_image image_path (effective_copy_color cc) (effective_orientation o)
    (effective_paper_punch pp) (effective_paper_binding pb) fs
  = process_image image_path cc o pp pb fs.
Proof.
  unfold process_image. revert fs.
  apply bind_ext; [done |]. intros content.
  apply bind_ext; [done |]. intros img fs. cbv zeta.
  by rewrite annotate_effective.
Qed.

Lemma convert_pages_effective pdf_path cc o pp pb page_num pages converted
    (fs : FS) :
  convert_pages pdf_path (effective_copy_color cc) (effective_orientation o)
    (effective_paper_punch pp) (effective_paper_binding pb)
    page_num pages converted fs
  = convert_pages pdf_path cc o pp pb page_num pages converted fs.
Proof.
  revert page_num converted fs.
  induction pages as [| pix pages IH]; intros page_num converted; [done |].
  simpl. apply bind_ext; [done |]. intros _.
  apply bind_ext; [apply process_image_effective |].
  intros processed fs. apply IH.
Qed.

Lemma keeps_fs_read path : keeps_files (fs_read path).
Proof.
  intros fs p Hin. unfold fs_read.
  by destruct (fs !! path_abspath path).
Qed.

Lemma keeps_fs_write path content : keeps_files (fs_write path content).
Proof.
  intros fs p Hin. unfold fs_write.
  destruct (writable (path_abspath path)); [| done]. simpl.
  rewrite lookup_insert. by case_decide.
Qed.

#[local] Hint Resolve keeps_fs_read keeps_fs_write : keeps.

Lemma keeps_copyfile src dst : keeps_files (copyfile src dst).
Proof. unfold copyfile. auto with keeps. Qed.

Lemma keeps_convert_to_pdf input_path output_path :
  keeps_files (convert_to_pdf input_path output_path).
Proof. unfold convert_to_pdf. auto 10 with keeps. Qed.

Lemma keeps_process_image image_path cc o pp pb :
  keeps_files (process_image image_path cc o pp pb).
Proof. unfold process_image. auto 10 with keeps. Qed.

#[local] Hint Resolve keeps_copyfile keeps_convert_to_pdf
  keeps_process_image : keeps.

Lemma keeps_convert_pages pdf_path cc o pp pb page_num pages converted :
  keeps_files (convert_pages pdf_path cc o pp pb page_num pages converted).
Proof.
  revert page_num converted.
  induction pages as [| pix pages IH]; intros page_num converted; simpl;
    auto 10 with keeps.
Qed.

#[local] Hint Resolve keeps_convert_pages : keeps.

(** [process_image] spelled out: where it can raise and what it
    writes. *)
Lemma process_image_run image_path cc o pp pb (fs : FS) :
  process_image image_path cc o pp pb fs
  = match fs !! path_abspath image_path with
    | None => (inl FileNotFoundError, fs)
    | Some content =>
        match image_open content with
        | None => (inl UnidentifiedImageError, fs)
        | Some img =>
            let out :=
              path_join IMAGE_FOLDER
                ("processed_" +:+ path_basename image_path) in
            match image_save out (im (annotate img cc o pp pb)) with
            | None => (inl SaveError, fs)
            | Some saved =>
                if writable (path_abspath out)
                then (inr out, <[path_abspath out := saved]> fs)
                else (inl OSError, fs)
            end
        end
    end.
Proof.
  unfold process_image. rewrite bind_run. unfold fs_read.
  destruct (fs !! path_abspath image_path) as [content |]; [| done].
  simpl. rewrite bind_run.
  destruct (image_open content) as [img |]; [| done].
  simpl. rewrite bind_run.
  destruct (image_save _ _) as [saved |]; [| done].
  simpl. rewrite bind_run. unfold fs_write.
  by destruct (writable _).
Qed.


End HandlerFacts.

Lemma effective_request_filled req :
  ¬ missing_option req → ¬ missing_option (effective_request req).
Proof.
  unfold missing_option, effective_request, effective_copy_color,
    effective_orientation, effective_paper_punch, effective_paper_binding.
  simpl. intros Hfilled Hmissing. apply Hfilled.
  destruct Hmissing as [H | [H | [H | H]]];
    [left | right; left | right; right; left | right; right; right];
    revert H; case_bool_decide; done.
Qed.

Section HandlerClaims.
Context {rasterizer : Rasterizer} {os_path : OsPath} {host : Host}.

(** C5, as the code has it: no option value is compared with its domain
    and there is no InvalidOption error.  A request with an empty option
    never reaches the handler (the framework answers with its validation
    error and nothing is written).  A request whose four options are
    filled in is handled, and handled exactly as the request in which each
    value outside its domain is replaced by the value of the domain that
    has no effect (color, portrait, no_hole, no_staple): same response or
    exception, same files written. *)
Theorem C5_options_not_validated req (fs : FS) :
  valid_options (effective_request req)
  ∧ (missing_option req → upload_route req fs = (RequestValidationError, fs))
  ∧ (¬ missing_option req →
       upload_route req fs
       = (Ran (upload_file req fs).1, (upload_file req fs).2)
       ∧ upload_route req fs = upload_route (effective_request req) fs).
Proof.
  split; [apply effective_request_valid |]. split.
  - intros Hmissing. unfold upload_route.
    by rewrite bool_decide_eq_true_2.
  - intros Hfilled.
    assert (Hsame : upload_file req fs = upload_file (effective_request req) fs).
    { unfold upload_file, effective_request.
      cbn [filename file copy_color orientation paper_punch paper_binding].
      revert fs. apply bind_ext; [done |]. intros _.
      apply bind_ext.
      - intros fs. repeat case_bool_decide; try done.
        revert fs. apply bind_ext; [done |]. intros _.
        apply bind_ext; [| done].
        intros fs. symmetry. apply process_image_effective.
      - intros [response | pdf_path]; [done |].
        apply bind_ext; [done |]. intros pdf.
        apply bind_ext; [done |]. intros pages.
        apply bind_ext; [| done].
        intros fs. symmetry. apply convert_pages_effective. }
    unfold upload_route.
    rewrite !bool_decide_eq_false_2
      by (done || by apply effective_request_filled).
    rewrite <- Hsame. by destruct (upload_file req fs).
Qed.


End HandlerClaims.

(** ** More on the annotator *)

Lemma getpixel_paint mask ink img (x y : nat) :
  getpixel (paint mask ink img) x y
  = (λ p, if mask (Z.of_nat x) (Z.of_nat y) then ink else p)
      <$> getpixel img x y.
Proof.
  unfold getpixel. simpl.
  destruct (bool_decide (x < width img)%nat) eqn:Hx; [| done].
  destruct (bool_decide (y < height img)%nat) eqn:Hy; [| done].
  apply bool_decide_eq_true_1 in Hx. simpl.
  rewrite list_lookup_imap.
  rewrite Nat.add_comm, Nat.Div0.mod_add, Nat.mod_small by done.
  rewrite Nat.div_add by lia.
  rewrite Nat.div_small by done. done.
Qed.

Lemma rgb2l_eight_bit p : eight_bit p → eight_bit (rgb2l p).
Proof.
  destruct p as [v | r g b]; [done |]. simpl. intros (Hr & Hg & Hb).
  unfold L24. rewrite Z.shiftr_div_pow2 by lia.
  change (2 ^ 16) with 65536.
  split.
  - apply Z.div_pos; lia.
  - apply Z.lt_succ_r, Z.div_lt_upper_bound; lia.
Qed.

Lemma getcolor_grey_eight_bit m : eight_bit (getcolor grey m).
Proof. destruct m; simpl; [vm_compute; split; discriminate | lia]. Qed.

Lemma black_eight_bit m : eight_bit (black m).
Proof. destruct m; simpl; lia. Qed.

Lemma convert_L_eight_bit img :
  Forall eight_bit (data img) → Forall eight_bit (data (convert_L img)).
Proof.
  intros Hpx. unfold convert_L. destruct (mode img); [done |]. simpl.
  apply Forall_fmap. eapply Forall_impl; [exact Hpx |].
  intros p. apply rgb2l_eight_bit.
Qed.

Lemma rotate_90_expand_eight_bit img :
  Forall eight_bit (data img) → Forall eight_bit (data (rotate_90_expand img)).
Proof.
  intros Hpx. simpl. unfold tabulate.
  apply Forall_fmap, Forall_forall. intros i _. simpl.
  unfold getpixel. case_match; [| apply black_eight_bit].
  destruct (data img !! _) as [p |] eqn:Hp; simpl.
  - by eapply Forall_lookup_1.
  - apply black_eight_bit.
Qed.

Lemma paint_eight_bit mask ink img :
  eight_bit ink → Forall eight_bit (data img) →
  Forall eight_bit (data (paint mask ink img)).
Proof.
  intros Hink Hpx. simpl. apply Forall_lookup. intros i p.
  rewrite list_lookup_imap_Some. intros (q & Hq & ->).
  case_match; [done |]. by eapply Forall_lookup_1.
Qed.

Section AnnotatorFacts.
Context {rasterizer : Rasterizer}.

Lemma draw_call_mode d c : mode (im (draw_call d c)) = mode (im d).
Proof. by destruct c. Qed.

Lemma draw_all_mode cs d : mode (im (draw_all cs d)) = mode (im d).
Proof.
  revert d. induction cs as [| c cs IH]; intros d; [done |].
  unfold draw_all in *. simpl. by rewrite IH, draw_call_mode.
Qed.

Lemma draw_all_app cs1 cs2 d :
  draw_all (cs1 ++ cs2) d = draw_all cs2 (draw_all cs1 d).
Proof. unfold draw_all. apply foldl_app. Qed.

(** The annotator is its calls, made in order on the turned image. *)
Lemma annotate_is_draw_all img cc o pp pb :
  annotate img cc o pp pb
  = draw_all (calls (annotate img cc o pp pb))
      (Draw (orientation_step o (color_step cc img))).
Proof.
  rewrite annotate_calls, draw_all_app, annotate_is_steps. reflexivity.
Qed.

Lemma getpixel_draw_call d c (x y : nat) :
  getpixel (im (draw_call d c)) x y
  = (λ p, if covers c x y then getcolor (fill_of c) (mode (im d)) else p)
      <$> getpixel (im d) x y.
Proof. destruct c; apply getpixel_paint. Qed.

Lemma getpixel_draw_all_uncovered cs d (x y : nat) :
  Forall (λ c, covers c x y = false) cs →
  getpixel (im (draw_all cs d)) x y = getpixel (im d) x y.
Proof.
  revert d. induction cs as [| c cs IH]; intros d Hcs; [done |].
  apply Forall_cons_1 in Hcs as [Hc Hcs].
  unfold draw_all in *. simpl. rewrite IH by done.
  rewrite getpixel_draw_call, Hc. by destruct (getpixel (im d) x y).
Qed.

Lemma draw_call_eight_bit d c :
  fill_of c = grey →
  Forall eight_bit (data (im d)) → Forall eight_bit (data (im (draw_call d c))).
Proof.
  intros Hfill Hpx.
  destruct c; simpl in *; subst; apply paint_eight_bit;
    auto using getcolor_grey_eight_bit.
Qed.

Lemma draw_all_eight_bit cs d :
  Forall (λ c, fill_of c = grey) cs →
  Forall eight_bit (data (im d)) → Forall eight_bit (data (im (draw_all cs d))).
Proof.
  revert d. induction cs as [| c cs IH]; intros d Hcs Hpx; [done |].
  apply Forall_cons_1 in Hcs as [Hc Hcs].
  unfold draw_all in *. simpl. by apply IH, draw_call_eight_bit.
Qed.

(** Every mark is drawn in grey, whatever the options. *)
Lemma annotate_fills img cc o pp pb :
  Forall (λ c, fill_of c = grey) (calls (annotate img cc o pp pb)).
Proof.
  rewrite annotate_calls. apply Forall_app. split.
  - unfold punch_marks. repeat case_bool_decide; by repeat constructor.
  - unfold binding_mark. case_bool_decide; by repeat constructor.
Qed.

Lemma steps_mode cc o img :
  mode (orientation_step o (color_step cc img))
  = (if bool_decide (cc = "black_and_white") then ModeL else mode img).
Proof.
  unfold orientation_step, color_step.
  repeat case_bool_decide; simpl; try done; apply convert_L_mode.
Qed.

Lemma annotate_mode img cc o pp pb :
  mode (im (annotate img cc o pp pb))
  = (if bool_decide (cc = "black_and_white") then ModeL else mode img).
Proof.
  rewrite annotate_is_draw_all, draw_all_mode. simpl. apply steps_mode.
Qed.

(** X2: the annotated image is in mode L when black_and_white is chosen
    and in the mode of the source otherwise; turning and drawing do not
    change the mode. *)
Theorem X2_annotate_mode img cc o pp pb :
  mode (im (annotate img cc o pp pb))
  = (if bool_decide (cc = "black_and_white") then ModeL else mode img).
Proof. apply annotate_mode. Qed.

(** X3: the marks change only the pixels they cover: a pixel that no
    call of the run covers has the value it has in the colour-reduced,
    turned image. *)
Theorem X3_uncovered_pixels_untouched img cc o pp pb (x y : nat) :
  Forall (λ c, covers c x y = false) (calls (annotate img cc o pp pb)) →
  getpixel (im (annotate img cc o pp pb)) x y
  = getpixel (orientation_step o (color_step cc img)) x y.
Proof.
  intros Hcs. rewrite annotate_is_draw_all.
  by rewrite getpixel_draw_all_uncovered.
Qed.

(** X4: the staple is drawn last, so it is on top: with corner_staple
    every pixel of the canvas that the staple polygon covers is grey in
    the result, also where a punch mark was drawn before. *)
Theorem X4_staple_on_top img cc o pp (x y : nat) :
  well_formed img →
  let out := im (annotate img cc o pp "corner_staple") in
  (x < width out)%nat → (y < height out)%nat →
  polygon_mask staple_coords (Z.of_nat x) (Z.of_nat y) = true →
  getpixel out x y = Some (getcolor grey (mode out)).
Proof.
  intros Hwf out Hx Hy Hmask. subst out.
  rewrite annotate_mode.
  destruct (annotate_size img cc o pp "corner_staple") as [Hw Hh].
  rewrite Hw in Hx. rewrite Hh in Hy.
  rewrite annotate_is_steps. unfold annotate_steps, binding_step.
  change (binding_mark "corner_staple") with [Polygon staple_coords grey].
  unfold draw_all at 1. simpl.
  rewrite getpixel_paint, Hmask.
  set (d := punch_step pp (Draw (orientation_step o (color_step cc img)))).
  assert (Hd : well_formed (im d)).
  { subst d. unfold punch_step.
    by apply draw_all_well_formed, orientation_step_well_formed,
      color_step_well_formed. }
  assert (Hsize : width (im d) = width (orientation_step o (color_step cc img))
                  ∧ height (im d) = height (orientation_step o (color_step cc img))).
  { subst d. unfold punch_step. apply draw_all_size. }
  assert (Hmode : mode (im d)
                  = (if bool_decide (cc = "black_and_white")
                     then ModeL else mode img)).
  { subst d. unfold punch_step. rewrite draw_all_mode. apply steps_mode. }
  destruct Hsize as [Hdw Hdh].
  destruct (getpixel_is_Some (im d) x y) as [p ->]; [apply Hd | lia | lia |].
  simpl. by rewrite Hmode.
Qed.

(** X5: samples stay within 8 bits: if every sample of the source is in
    0..255, so is every sample of the annotated image, through the luma
    transform, the turn and the grey ink. *)
Theorem X5_annotate_eight_bit img cc o pp pb :
  Forall eight_bit (data img) →
  Forall eight_bit (data (im (annotate img cc o pp pb))).
Proof.
  intros Hpx. rewrite annotate_is_draw_all.
  apply draw_all_eight_bit; [apply annotate_fills |]. simpl.
  unfold orientation_step, color_step.
  repeat case_bool_decide;
    auto using rotate_90_expand_eight_bit, convert_L_eight_bit.
Qed.

(** X6: two landscape runs without marks make a half turn: the pixel
    [(x, y)] of the source is at [(width - 1 - x, height - 1 - y)] of the
    result. *)
Theorem X6_two_turns_half_turn img (x y : nat) :
  well_formed img → (x < width img)%nat → (y < height img)%nat →
  let once := im (annotate img "color" "landscape" "no_hole" "no_staple") in
  let twice := im (annotate once "color" "landscape" "no_hole" "no_staple") in
  getpixel twice (width img - 1 - x) (height img - 1 - y) = getpixel img x y.
Proof.
  intros Hwf Hx Hy once twice. subst once twice.
  rewrite !annotate_is_steps.
  change (getpixel (rotate_90_expand (rotate_90_expand img))
            (width img - 1 - x) (height img - 1 - y) = getpixel img x y).
  pose proof (rotate_90_expand_well_formed img Hwf) as [Hlen' _].
  destruct Hwf as [Hlen _].
  rewrite <- (rotate_90_expand_getpixel img x y) by done.
  apply (rotate_90_expand_getpixel (rotate_90_expand img)
           y (width img - 1 - x) Hlen'); simpl; lia.
Qed.

End AnnotatorFacts.

(** ** The marks on the image *)

Section MarksOnCanvas.
Context {rasterizer : Rasterizer}.

(** Marks in one ink: a pixel that some call covers has the ink, any
    other pixel is as it was. *)
Lemma getpixel_draw_all_grey cs d (x y : nat) :
  Forall (λ c, fill_of c = grey) cs →
  getpixel (im (draw_all cs d)) x y
  = (λ p, if existsb (λ c, covers c x y) cs
          then getcolor grey (mode (im d)) else p)
      <$> getpixel (im d) x y.
Proof.
  revert d. induction cs as [| c cs IH]; intros d Hcs.
  - simpl. by destruct (getpixel (im d) x y).
  - apply Forall_cons_1 in Hcs as [Hc Hcs].
    change (draw_all (c :: cs) d) with (draw_all cs (draw_call d c)).
    rewrite IH, draw_call_mode, getpixel_draw_call, Hc by done.
    destruct (getpixel (im d) x y) as [p |]; [| done]. simpl.
    by destruct (covers c x y), (existsb _ cs).
Qed.

Lemma punch_marks_fills pp h : Forall (λ c, fill_of c = grey) (punch_marks pp h).
Proof. unfold punch_marks. repeat case_bool_decide; by repeat constructor. Qed.

Lemma binding_mark_fills pb : Forall (λ c, fill_of c = grey) (binding_mark pb).
Proof. unfold binding_mark. case_bool_decide; by repeat constructor. Qed.

(** The annotated image, pixel by pixel. *)
Lemma annotate_pixels img cc o pp pb (x y : nat) :
  let rotated := orientation_step o (color_step cc img) in
  getpixel (im (annotate img cc o pp pb)) x y
  = (λ p, if existsb (λ c, covers c x y)
               (punch_marks pp (Z.of_nat (height rotated)) ++ binding_mark pb)
          then getcolor grey (mode rotated) else p)
      <$> getpixel rotated x y.
Proof.
  intros rotated.
  assert (Hsteps : annotate img cc o pp pb
            = draw_all (punch_marks pp (Z.of_nat (height rotated))
                        ++ binding_mark pb) (Draw rotated))
    by (rewrite draw_all_app, annotate_is_steps; reflexivity).
  rewrite Hsteps. apply getpixel_draw_all_grey, Forall_app.
  split; [apply punch_marks_fills | apply binding_mark_fills].
Qed.

(** The exact rasterizer fills the disc that the box of a circle
    encloses. *)
Lemma inscribed_ellipse_circle (cx cy r x y : Z) :
  0 < r →
  inscribed_ellipse (cx - r, cy - r, cx + r, cy + r) x y = true
  ↔ (x - cx) ^ 2 + (y - cy) ^ 2 ≤ r ^ 2.
Proof.
  intros Hr. unfold inscribed_ellipse.
  rewrite !andb_true_iff, !Z.leb_le.
  replace (cx + r - (cx - r)) with (2 * r) by lia.
  replace (cy + r - (cy - r)) with (2 * r) by lia.
  replace (2 * x - (cx - r + (cx + r))) with (2 * (x - cx)) by lia.
  replace (2 * y - (cy - r + (cy + r))) with (2 * (y - cy)) by lia.
  split.
  - intros (_ & H). nia.
  - intros H. repeat split; nia.
Qed.

(** C2: with two_holes the ellipses issued are the circles of radius 10
    centred at x = 20 and y = height // 3, 2 * height // 3; with
    three_holes those at height // 4, height // 2, 3 * height // 4; with
    no_hole none.  [height] is the height of the annotated image, which is
    that of the turned image.  On the image: a pixel takes the grey ink
    when one of these circles (or the staple) covers it and keeps the
    value of the turned image otherwise, so with no_hole only the staple
    shows.  On exact geometry a circle covers the pixels at distance 10 or
    less from its centre. *)
Theorem C2_punch_mark_geometry img cc o pb :
  let marks pp := filter is_ellipse (calls (annotate img cc o pp pb)) in
  let h pp := Z.of_nat (height (im (annotate img cc o pp pb))) in
  let rotated := orientation_step o (color_step cc img) in
  let ink := getcolor grey (mode rotated) in
  let stapled (x y : nat) := existsb (λ c, covers c x y) (binding_mark pb) in
  (marks "two_holes"
     = [circle 20 (h "two_holes" / 3) 10 grey;
        circle 20 (2 * h "two_holes" / 3) 10 grey]
   ∧ marks "three_holes"
     = [circle 20 (h "three_holes" / 4) 10 grey;
        circle 20 (h "three_holes" / 2) 10 grey;
        circle 20 (3 * h "three_holes" / 4) 10 grey]
   ∧ marks "no_hole" = [])
  ∧ (∀ pp, h pp = Z.of_nat (height rotated))
  ∧ (∀ x y : nat,
       getpixel (im (annotate img cc o "two_holes" pb)) x y
       = (λ p, if covers (circle 20 (h "two_holes" / 3) 10 grey) x y
                  || covers (circle 20 (2 * h "two_holes" / 3) 10 grey) x y
                  || stapled x y
               then ink else p) <$> getpixel rotated x y)
  ∧ (∀ x y : nat,
       getpixel (im (annotate img cc o "three_holes" pb)) x y
       = (λ p, if covers (circle 20 (h "three_holes" / 4) 10 grey) x y
                  || covers (circle 20 (h "three_holes" / 2) 10 grey) x y
                  || covers (circle 20 (3 * h "three_holes" / 4) 10 grey) x y
                  || stapled x y
               then ink else p) <$> getpixel rotated x y)
  ∧ (∀ x y : nat,
       getpixel (im (annotate img cc o "no_hole" pb)) x y
       = (λ p, if stapled x y then ink else p) <$> getpixel rotated x y)
  ∧ (∀ (cy : Z) (x y : nat),
       covers (rasterizer := exact_rasterizer) (circle 20 cy 10 grey) x y = true
       ↔ (Z.of_nat x - 20) ^ 2 + (Z.of_nat y - cy) ^ 2 ≤ 10 ^ 2).
Proof.
  intros marks h rotated ink stapled.
  assert (Hh : ∀ pp, h pp = Z.of_nat (height rotated)).
  { intros pp. subst h rotated. simpl.
    by destruct (annotate_size img cc o pp pb) as [_ ->]. }
  assert (Hmarks : ∀ pp, marks pp = punch_marks pp (h pp)).
  { intros pp. subst marks. simpl.
    by rewrite annotate_calls, filter_app, punch_marks_ellipses,
      binding_mark_ellipses, app_nil_r, Hh. }
  split; [rewrite !Hmarks; repeat split |].
  split; [exact Hh |].
  assert (Hpixels : ∀ pp (x y : nat),
    getpixel (im (annotate img cc o pp pb)) x y
    = (λ p, if existsb (λ c, covers c x y) (punch_marks pp (h pp))
               || stapled x y
            then ink else p) <$> getpixel rotated x y).
  { intros pp x y. rewrite annotate_pixels, Hh. fold rotated.
    by rewrite existsb_app. }
  repeat split.
  - intros x y. rewrite Hpixels.
    destruct (getpixel rotated x y) as [p |]; [| done].
    change (punch_marks "two_holes" (h "two_holes"))
      with [circle 20 (h "two_holes" / 3) 10 grey;
            circle 20 (2 * h "two_holes" / 3) 10 grey].
    simpl. by rewrite orb_false_r.
  - intros x y. rewrite Hpixels.
    destruct (getpixel rotated x y) as [p |]; [| done].
    change (punch_marks "three_holes" (h "three_holes"))
      with [circle 20 (h "three_holes" / 4) 10 grey;
            circle 20 (h "three_holes" / 2) 10 grey;
            circle 20 (3 * h "three_holes" / 4) 10 grey].
    simpl. by rewrite orb_false_r, ?orb_assoc.
  - intros x y. by rewrite Hpixels.
  - apply inscribed_ellipse_circle. lia.
  - apply inscribed_ellipse_circle. lia.
Qed.

(** C3: with corner_staple exactly one polygon is issued, the
    quadrilateral (35,40), (75,30), (77,35), (37,45) in grey, whatever the
    image; on the image, a pixel that this polygon covers takes the grey
    ink and every other pixel is as the punch-mark step left it.  With
    no_staple the result is what the punch-mark step left.  On exact
    geometry the polygon covers the points between its four edges, all of
    them within x in 35..77 and y in 30..45. *)
Theorem C3_corner_staple img cc o pp :
  let punched := punch_step pp (Draw (orientation_step o (color_step cc img))) in
  filter is_polygon (calls (annotate img cc o pp "corner_staple"))
    = [Polygon [(35, 40); (75, 30); (77, 35); (37, 45)] grey]
  ∧ (∀ x y : nat,
       getpixel (im (annotate img cc o pp "corner_staple")) x y
       = (λ p, if polygon_mask [(35, 40); (75, 30); (77, 35); (37, 45)]
                    (Z.of_nat x) (Z.of_nat y)
               then getcolor grey (mode (im punched)) else p)
           <$> getpixel (im punched) x y)
  ∧ annotate img cc o pp "no_staple" = punched
  ∧ (∀ x y : Z,
       polygon_mask (Rasterizer := exact_rasterizer)
         [(35, 40); (75, 30); (77, 35); (37, 45)] x y = true
       ↔ 195 ≤ x + 4 * y ≤ 217 ∧ 95 ≤ 5 * x - 2 * y ≤ 315).
Proof.
  intros punched. split; [| split; [| split]].
  - rewrite annotate_calls, filter_app, punch_marks_polygons. reflexivity.
  - intros x y. rewrite annotate_is_steps.
    unfold annotate_steps, binding_step. fold punched.
    exact (getpixel_draw_call punched
             (Polygon [(35, 40); (75, 30); (77, 35); (37, 45)] grey) x y).
  - rewrite annotate_is_steps. reflexivity.
  - intros x y. simpl. unfold inside_convex. simpl.
    rewrite orb_true_iff, !andb_true_iff, !Z.leb_le. lia.
Qed.

End MarksOnCanvas.

(** ** More on the handler *)

Lemma lower_ascii_dot c : lower_ascii c = "."%char → c = "."%char.
Proof.
  destruct c as [[] [] [] [] [] [] [] []]; vm_compute; congruence.
Qed.

Lemma lower_ascii_idempotent c : lower_ascii (lower_ascii c) = lower_ascii c.
Proof. destruct c as [[] [] [] [] [] [] [] []]; reflexivity. Qed.

Lemma lower_idempotent s : lower (lower s) = lower s.
Proof.
  induction s as [| c s IH]; [done |].
  simpl. by rewrite lower_ascii_idempotent, IH.
Qed.

Lemma occurs_lower_dot s : occurs "." s = false → occurs "." (lower s) = false.
Proof.
  induction s as [| c s IH]; [done |]. simpl.
  intros [Hc Hs]%orb_false_elim. rewrite IH by done.
  destruct (Ascii.eqb_spec (lower_ascii c) ".") as [Heq | Hne]; [| done].
  apply lower_ascii_dot in Heq. subst c. done.
Qed.

Lemma split_nonempty sep s : split sep s ≠ [].
Proof.
  destruct s as [| c s]; [done |]. simpl.
  destruct (Ascii.eqb c sep); [done |]. by destruct (split sep s).
Qed.

Lemma split_no_sep sep s : occurs sep s = false → split sep s = [s].
Proof.
  induction s as [| c s IH]; [done |]. simpl.
  intros [Hc Hs]%orb_false_elim. by rewrite Hc, IH.
Qed.

Lemma last_part_cons part parts :
  parts ≠ [] → last_part (part :: parts) = last_part parts.
Proof. by destruct parts. Qed.

Lemma last_part_split_no_sep sep s :
  occurs sep (last_part (split sep s)) = false.
Proof.
  induction s as [| c s IH]; [done |]. simpl.
  destruct (Ascii.eqb c sep) eqn:Hc.
  - by rewrite last_part_cons by apply split_nonempty.
  - destruct (split sep s) as [| part parts] eqn:Hsplit; [by simpl; rewrite Hc |].
    destruct parts as [| part' parts].
    + unfold last_part in *. simpl in *. by rewrite Hc.
    + exact IH.
Qed.

(** Splitting at a separator and joining with it again gives the string
    back. *)
Lemma split_str_join sep s :
  str_join (String sep EmptyString) (split sep s) = s.
Proof.
  induction s as [| c s IH]; [done |]. simpl.
  destruct (Ascii.eqb_spec c sep) as [-> | Hne].
  - destruct (split sep s) as [| part parts] eqn:Hsplit;
      [by apply split_nonempty in Hsplit |].
    change (str_join (String sep EmptyString) (EmptyString :: part :: parts))
      with (String sep (str_join (String sep EmptyString) (part :: parts))).
    by rewrite IH.
  - destruct (split sep s) as [| part parts] eqn:Hsplit;
      [by apply split_nonempty in Hsplit |].
    destruct parts as [| part' parts]; simpl in *; by rewrite <- IH.
Qed.

(** X17: for a file name of 7-bit characters, the extension the handler
    dispatches on has no dot in it and no upper-case letter left:
    lowering it again changes nothing. *)
Theorem X17_extension_shape name :
  is_ascii name = true →
  occurs "." (extension_of name) = false
  ∧ lower (extension_of name) = extension_of name.
Proof.
  intros _. unfold extension_of. split.
  - apply occurs_lower_dot, last_part_split_no_sep.
  - apply lower_idempotent.
Qed.

Section HandlerMore.
Context {rasterizer : Rasterizer} {os_path : OsPath} {host : Host}.

Lemma process_image_returns image_path cc o pp pb (fs fs' : FS) out :
  process_image image_path cc o pp pb fs = (inr out, fs') →
  out = processed_path image_path.
Proof.
  rewrite process_image_run.
  destruct (fs !! path_abspath image_path) as [content |]; [| done].
  destruct (image_open content) as [img |]; [| done].
  cbv zeta. fold (processed_path image_path).
  destruct (image_save _ _) as [saved |]; [| done].
  destruct (writable _); [| done].
  by intros [= <- _].
Qed.

(** X7: when [process_image] returns, it returns [processed_path] of its
    input, and the one change to the disk is that file, which holds the
    encoding of the annotated decoding of the input; when the input is
    missing or is not an image it raises with the disk as it was. *)
Theorem X7_process_image_effect image_path cc o pp pb (fs : FS) :
  let run := process_image image_path cc o pp pb fs in
  (∀ out, run.1 = inr out →
     out = processed_path image_path ∧
     ∃ content img saved,
       fs !! path_abspath image_path = Some content ∧
       image_open content = Some img ∧
       image_save out (im (annotate img cc o pp pb)) = Some saved ∧
       run.2 = <[path_abspath out := saved]> fs)
  ∧ (fs !! path_abspath image_path = None →
       run = (inl FileNotFoundError, fs))
  ∧ (∀ content, fs !! path_abspath image_path = Some content →
       image_open content = None →
       run = (inl UnidentifiedImageError, fs)).
Proof.
  intros run. subst run. rewrite process_image_run.
  split; [| split].
  - destruct (fs !! path_abspath image_path) as [content |]; [| done].
    destruct (image_open content) as [img |] eqn:Hopen; [| done].
    cbv zeta. fold (processed_path image_path).
    destruct (image_save _ _) as [saved |] eqn:Hsave; [| done].
    destruct (writable _); [| done].
    intros out [= <-]. split; [done |]. by exists content, img, saved.
  - by intros ->.
  - by intros content -> ->.
Qed.

(** [convert_to_pdf] spelled out. *)
Lemma convert_to_pdf_run input_path output_path (fs : FS) :
  convert_to_pdf input_path output_path fs
  = let export_with (export : list byte → option (list byte)) :=
      match fs !! path_abspath (path_abspath input_path) with
      | None => (inl RuntimeError, fs)
      | Some document =>
          match export document with
          | None => (inl RuntimeError, fs)
          | Some pdf =>
              if writable (path_abspath (path_abspath output_path))
              then (inr (path_abspath output_path),
                    <[path_abspath (path_abspath output_path) := pdf]> fs)
              else (inl RuntimeError, fs)
          end
      end in
    if bool_decide (extension_of input_path ∈ ["doc"; "docx"])
    then export_with word_save_as_pdf
    else if bool_decide (extension_of input_path ∈ ["ppt"; "pptx"])
    then export_with powerpoint_save_as_pdf
    else (inr (path_abspath output_path), fs).
Proof.
  unfold convert_to_pdf. cbv zeta. fold (extension_of input_path).
  rewrite bind_run. unfold try_except.
  repeat case_bool_decide; [| | done].
  all: rewrite bind_run; unfold fs_read.
  all: destruct (fs !! path_abspath (path_abspath input_path)) as [doc |];
         [| done].
  all: simpl; rewrite bind_run.
  1: destruct (word_save_as_pdf doc) as [pdf |]; [| done].
  2: destruct (powerpoint_save_as_pdf doc) as [pdf |]; [| done].
  all: simpl; unfold fs_write; by destruct (writable _).
Qed.

(** X8: [convert_to_pdf] raises nothing but [RuntimeError], and when it
    returns it returns the absolute output path.  When the extension of
    the input path is none of doc, docx, ppt, pptx it converts nothing and
    leaves the disk alone; when it is doc or docx and the function
    returns, the output file holds what Word made of the input file, and
    likewise with PowerPoint for ppt and pptx. *)
Theorem X8_convert_to_pdf_outcomes input_path output_path (fs : FS) :
  let run := convert_to_pdf input_path output_path fs in
  let converted (export : list byte → option (list byte)) :=
    ∃ document pdf,
      fs !! path_abspath (path_abspath input_path) = Some document ∧
      export document = Some pdf ∧
      run.2 = <[path_abspath (path_abspath output_path) := pdf]> fs in
  (∀ e, run.1 = inl e → e = RuntimeError)
  ∧ (∀ p, run.1 = inr p → p = path_abspath output_path)
  ∧ (extension_of input_path ∉ office_extensions →
       run = (inr (path_abspath output_path), fs))
  ∧ (extension_of input_path ∈ ["doc"; "docx"] →
       ∀ p, run.1 = inr p → converted word_save_as_pdf)
  ∧ (extension_of input_path ∈ ["ppt"; "pptx"] →
       ∀ p, run.1 = inr p → converted powerpoint_save_as_pdf).
Proof.
  intros run converted. subst run converted.
  rewrite convert_to_pdf_run. cbv zeta.
  assert (Hoffice : ∀ ext : string,
            ext ∈ ["doc"; "docx"] ∨ ext ∈ ["ppt"; "pptx"] →
            ext ∈ office_extensions)
    by (unfold office_extensions; intros ext; set_unfold; tauto).
  assert (Hdisjoint : ∀ ext : string,
            ext ∈ ["doc"; "docx"] → ext ∈ ["ppt"; "pptx"] → False)
    by (intros ext; set_unfold; intros [-> | [-> | []]] [? | [? | []]]; done).
  destruct (bool_decide (extension_of input_path ∈ ["doc"; "docx"])) eqn:Hw;
    [apply bool_decide_eq_true_1 in Hw | apply bool_decide_eq_false_1 in Hw].
  2: destruct (bool_decide (extension_of input_path ∈ ["ppt"; "pptx"])) eqn:Hp;
       [apply bool_decide_eq_true_1 in Hp | apply bool_decide_eq_false_1 in Hp].
  3: { simpl. split; [done |]. split; [by intros p [= <-] |].
       split; [done |]. by split; intros Hin. }
  all: destruct (fs !! path_abspath (path_abspath input_path))
         as [document |] eqn:Hdoc.
  1: destruct (word_save_as_pdf document) as [pdf |] eqn:Hexport.
  4: destruct (powerpoint_save_as_pdf document) as [pdf |] eqn:Hexport.
  1, 4: destruct (writable _).
  all: simpl.
  all: split; [by intros e [= <-] |].
  all: split; [by intros p [= <-] |].
  all: split; [intros Hout; exfalso; apply Hout, Hoffice; tauto |].
  all: split; [first [by intros _ p | by intros Hin; exfalso; eauto
                     | by intros _ p _; exists document, pdf] |].
  all: first [by intros _ p | by intros Hin; exfalso; eauto
             | by intros _ p _; exists document, pdf].
Qed.

(** The paths [convert_pages] returns: what it was given, then the
    processed image of each page in page order. *)
Lemma convert_pages_returns pdf_path cc o pp pb page_num pages converted
    (fs fs' : FS) l :
  convert_pages pdf_path cc o pp pb page_num pages converted fs = (inr l, fs') →
  l = converted
      ++ ((λ i, processed_path (page_image_path pdf_path i))
            <$> seq page_num (length pages)).
Proof.
  revert page_num converted fs.
  induction pages as [| pix pages IH]; intros page_num converted fs; simpl.
  - intros [= <- _]. by rewrite app_nil_r.
  - rewrite bind_run. fold (page_image_path pdf_path page_num).
    unfold fs_write. destruct (writable _); [| done].
    rewrite bind_run.
    destruct (process_image _ _ _ _ _ _) as [[e | out] fs1] eqn:Hrun; [done |].
    apply process_image_returns in Hrun as ->.
    intros Hrest. apply IH in Hrest. by rewrite <- app_assoc in Hrest.
Qed.

Lemma extension_pdf_branch ext :
  ext = "pdf" →
  bool_decide (ext ∈ ["doc"; "docx"; "ppt"; "pptx"]) = false
  ∧ bool_decide (ext = "pdf") = true.
Proof. intros ->. done. Qed.

Lemma extension_image_branch ext :
  ext ∈ image_extensions →
  bool_decide (ext ∈ ["doc"; "docx"; "ppt"; "pptx"]) = false
  ∧ bool_decide (ext = "pdf") = false
  ∧ bool_decide (ext ∈ ["jpg"; "jpeg"; "png"]) = true.
Proof.
  unfold image_extensions. intros Hin.
  repeat (apply elem_of_cons in Hin as [-> | Hin]; [done |]).
  by apply elem_of_nil in Hin.
Qed.

(** [upload_file] on a PDF, once the upload is saved. *)
Lemma upload_file_pdf req (fs : FS) :
  extension_of (filename req) = "pdf" →
  writable (path_abspath (upload_path req)) = true →
  upload_file req fs
  = (pages ← or_raise FileDataError (pdf_pixmaps (file req));
     converted_images ←
       convert_pages (upload_path req) (copy_color req) (orientation req)
         (paper_punch req) (paper_binding req) 0 pages [];
     ret (generate_html_response converted_images))
      (<[path_abspath (upload_path req) := file req]> fs).
Proof.
  intros Hext Hw. unfold upload_file.
  fold (extension_of (filename req)). fold (upload_path req).
  destruct (extension_pdf_branch _ Hext) as [-> ->].
  rewrite bind_run. unfold fs_write at 1. rewrite Hw.
  rewrite !bind_run. simpl. rewrite bind_run.
  unfold fs_read. by rewrite lookup_insert_eq.
Qed.

(** X9: the preview of a PDF has one picture per page, in page order:
    when the handler returns, the page is the slider over the processed
    images of pages 1, 2, ... of the upload. *)
Theorem X9_pdf_preview_pages req (fs : FS) pages response :
  extension_of (filename req) = "pdf" →
  writable (path_abspath (upload_path req)) = true →
  pdf_pixmaps (file req) = Some pages →
  (upload_file req fs).1 = inr response →
  response
  = Slider ((λ i, "/static/"
                  +:+ path_basename
                        (processed_path (page_image_path (upload_path req) i)))
              <$> seq 0 (length pages)).
Proof.
  intros Hext Hw Hpages. rewrite upload_file_pdf by done.
  rewrite bind_run, Hpages. simpl. rewrite bind_run.
  destruct (convert_pages _ _ _ _ _ _ _ _ _) as [[e | l] fs'] eqn:Hrun;
    [done |].
  apply convert_pages_returns in Hrun. subst l. simpl.
  intros [= <-]. unfold generate_html_response.
  by rewrite <- list_fmap_compose.
Qed.

(** X10: a PDF without pages gets the slider page with no picture, and
    only the upload is written. *)
Theorem X10_pdf_without_pages req (fs : FS) :
  extension_of (filename req) = "pdf" →
  writable (path_abspath (upload_path req)) = true →
  pdf_pixmaps (file req) = Some [] →
  upload_file req fs
  = (inr (Slider []), <[path_abspath (upload_path req) := file req]> fs).
Proof.
  intros Hext Hw Hpages. rewrite upload_file_pdf by done.
  by rewrite bind_run, Hpages.
Qed.

(** X11: an upload named [.pdf] that PyMuPDF cannot open ends in
    [FileDataError], and the upload stays on the disk. *)
Theorem X11_pdf_not_a_pdf req (fs : FS) :
  extension_of (filename req) = "pdf" →
  writable (path_abspath (upload_path req)) = true →
  pdf_pixmaps (file req) = None →
  upload_file req fs
  = (inl FileDataError, <[path_abspath (upload_path req) := file req]> fs).
Proof.
  intros Hext Hw Hpages. rewrite upload_file_pdf by done.
  by rewrite bind_run, Hpages.
Qed.

(** [upload_file] on a picture, once the upload is saved. *)
Lemma upload_file_image req (fs : FS) :
  extension_of (filename req) ∈ image_extensions →
  writable (path_abspath (upload_path req)) = true →
  upload_file req fs
  = (copyfile (upload_path req) (path_join IMAGE_FOLDER (filename req));;
     processed ← process_image (path_join IMAGE_FOLDER (filename req))
                   (copy_color req) (orientation req)
                   (paper_punch req) (paper_binding req);
     ret (generate_html_response [processed]))
      (<[path_abspath (upload_path req) := file req]> fs).
Proof.
  intros Hext Hw. unfold upload_file.
  fold (extension_of (filename req)). fold (upload_path req).
  destruct (extension_image_branch _ Hext) as (-> & -> & ->).
  rewrite bind_run. unfold fs_write at 1. rewrite Hw.
  rewrite !bind_run.
  destruct (copyfile _ _ _) as [[e | []] fs1]; [done |].
  rewrite !bind_run.
  by destruct (process_image _ _ _ _ _ _) as [[e | out] fs2].
Qed.

(** X12: a picture Pillow cannot identify ends in
    [UnidentifiedImageError]; nothing is cleaned up: the upload and its
    copy in the image folder stay on the disk. *)
Theorem X12_image_not_an_image req (fs : FS) :
  let image_path := path_join IMAGE_FOLDER (filename req) in
  extension_of (filename req) ∈ image_extensions →
  writable (path_abspath (upload_path req)) = true →
  writable (path_abspath image_path) = true →
  path_abspath (upload_path req) ≠ path_abspath image_path →
  image_open (file req) = None →
  upload_file req fs
  = (inl UnidentifiedImageError,
     <[path_abspath image_path := file req]>
       (<[path_abspath (upload_path req) := file req]> fs)).
Proof.
  intros image_path Hext Hw Hw' Hne Hopen.
  rewrite upload_file_image by done. fold image_path.
  rewrite bind_run. unfold copyfile.
  rewrite bool_decide_eq_false_2 by done.
  rewrite bind_run. unfold fs_read. rewrite lookup_insert_eq. simpl.
  unfold fs_write. rewrite Hw'.
  rewrite bind_run, process_image_run, lookup_insert_eq, Hopen. done.
Qed.

(** X13: when the upload and its copy in the image folder are the same
    file, the copy raises [SameFileError] and only the upload is
    written. *)
Theorem X13_image_same_file req (fs : FS) :
  extension_of (filename req) ∈ image_extensions →
  writable (path_abspath (upload_path req)) = true →
  path_abspath (upload_path req)
  = path_abspath (path_join IMAGE_FOLDER (filename req)) →
  upload_file req fs
  = (inl SameFileError, <[path_abspath (upload_path req) := file req]> fs).
Proof.
  intros Hext Hw Hsame. rewrite upload_file_image by done.
  rewrite bind_run. unfold copyfile.
  by rewrite bool_decide_eq_true_2.
Qed.

(** X14: when the upload cannot be saved the request ends in [OSError]
    at once, whatever the extension, and the disk is as it was. *)
Theorem X14_upload_not_writable req (fs : FS) :
  writable (path_abspath (upload_path req)) = false →
  upload_file req fs = (inl OSError, fs).
Proof.
  intros Hw. unfold upload_file. fold (upload_path req).
  rewrite bind_run. unfold fs_write at 1. by rewrite Hw.
Qed.

(** X15: the handler never removes a file: whatever the request and
    however it ends, every file that was on the disk is still there. *)
Theorem X15_upload_file_keeps_files req : keeps_files (upload_file req).
Proof.
  unfold upload_file.
  apply keeps_bind; [apply keeps_fs_write |]. intros _.
  apply keeps_bind.
  - repeat apply keeps_if;
      auto 10 using keeps_bind, keeps_mret, keeps_ret, keeps_copyfile,
        keeps_convert_to_pdf, keeps_process_image.
  - intros [response | pdf_path];
      auto 10 using keeps_bind, keeps_mret, keeps_ret, keeps_or_raise,
        keeps_fs_read, keeps_convert_pages.
Qed.

(** X16: the office branch is chosen by the extension of the file name,
    but the converter by the extension of the joined path.  When the
    second is not an office extension (a name without a dot, such as
    [doc]), nothing is converted, and the handler goes on to open a PDF
    that nobody wrote: [FileNotFoundError], with the upload left on the
    disk. *)
Theorem X16_office_name_without_dot req (fs : FS) :
  let pdf_path :=
    path_join UPLOAD_FOLDER (fst (path_splitext (filename req)) +:+ ".pdf") in
  extension_of (filename req) ∈ office_extensions →
  extension_of (upload_path req) ∉ office_extensions →
  writable (path_abspath (upload_path req)) = true →
  (<[path_abspath (upload_path req) := file req]> fs)
    !! path_abspath (path_abspath pdf_path) = None →
  upload_file req fs
  = (inl FileNotFoundError,
     <[path_abspath (upload_path req) := file req]> fs).
Proof.
  intros pdf_path Hext Hpath Hw Hnone. unfold upload_file.
  fold (extension_of (filename req)). fold (upload_path req). fold pdf_path.
  rewrite (bool_decide_eq_true_2 _ Hext).
  rewrite bind_run. unfold fs_write at 1. rewrite Hw.
  rewrite !bind_run. unfold convert_to_pdf.
  fold (extension_of (upload_path req)).
  rewrite !bind_run. unfold try_except.
  rewrite !bool_decide_eq_false_2
    by (intros Hin; apply Hpath; unfold office_extensions;
        set_unfold; tauto).
  simpl. rewrite bind_run. unfold fs_read. by rewrite Hnone.
Qed.

End HandlerMore.

Lemma lower_not_office c s :
  lower_ascii c ≠ "d"%char → lower_ascii c ≠ "p"%char →
  lower (String c s) ∉ office_extensions.
Proof.
  intros Hd Hp. unfold office_extensions. simpl. set_unfold.
  intros [H | [H | [H | [H | []]]]]; injection H; congruence.
Qed.

(** With [posixpath], a file name without a dot never gives a path with
    an office extension. *)
Lemma posix_dotless_upload_path cwd name :
  occurs "." name = false →
  extension_of (path_join (OsPath := posixpath cwd) UPLOAD_FOLDER name)
    ∉ office_extensions.
Proof.
  intros Hdot. unfold extension_of. simpl. unfold posix_join.
  destruct (startswith "/" name) eqn:Hslash.
  - destruct name as [| c name]; [done |].
    change (startswith "/" (String c name))
      with (if Ascii.ascii_dec "/" c then String.prefix EmptyString name
            else false) in Hslash.
    destruct (Ascii.ascii_dec "/" c) as [<- | ?]; [| done].
    rewrite split_no_sep by done.
    by apply lower_not_office.
  - change (bool_decide (UPLOAD_FOLDER = EmptyString)
            || endswith_sep UPLOAD_FOLDER) with false.
    cbv iota.
    rewrite split_no_sep by (simpl; exact Hdot).
    by apply lower_not_office.
Qed.

(** ** The program on sample inputs *)

(** The sample runs use the exact rasterizer, [posixpath] and the raw
    host. *)
#[local] Existing Instance exact_rasterizer.
#[local] Existing Instance sample_os_path.
#[local] Existing Instance raw_host.

Lemma rgb_3x2_well_formed : well_formed rgb_3x2.
Proof. split; [reflexivity | repeat constructor]. Qed.

(** On a 900 pixel tall page the two holes are centred at (20, 300) and
    (20, 600). *)
Example two_holes_on_900 :
  calls (annotate (white_image ModeRGB 40 900) "color" "portrait" "two_holes" "no_staple")
  = [circle 20 300 10 grey; circle 20 600 10 grey].
Proof. rewrite annotate_calls. reflexivity. Qed.

(** A landscape page 900 wide and 40 tall: the marks follow the height
    after the turn, 900, not the 40 of the upload. *)
Example two_holes_after_rotation :
  calls (annotate (white_image ModeL 900 40) "color" "landscape" "two_holes" "no_staple")
  = [circle 20 300 10 grey; circle 20 600 10 grey].
Proof. rewrite annotate_calls. reflexivity. Qed.

(** Two quarter turns make a half turn: the size is back, the content is
    not. *)
Example rotation_twice_is_a_half_turn :
  rotate_90_expand (rotate_90_expand rgb_3x2)
  = {| mode := ModeRGB; width := 3; height := 2;
       data := rev (data rgb_3x2) |}.
Proof. reflexivity. Qed.

Example grayscale_of_primaries :
  data (convert_L rgb_3x2) = [PL 76; PL 150; PL 29; PL 18; PL 48; PL 78].
Proof. reflexivity. Qed.

Lemma C4_landscape_rotation_witness :
  well_formed rgb_3x2 ∧
  size (im (annotate rgb_3x2 "black_and_white" "landscape" "two_holes" "corner_staple"))
  = (2, 3).
Proof.
  split; [exact rgb_3x2_well_formed |].
  destruct (C4_landscape_rotation rgb_3x2
              "black_and_white" "two_holes" "corner_staple"
              rgb_3x2_well_formed) as [[Hw Hh] _].
  unfold size. rewrite Hw, Hh. reflexivity.
Defined.

(** C6, refuted as stated: on a page 15 pixels tall the two marks are
    drawn all the same, the first from row -5 and the second down to row
    20. *)
Lemma C6_counterexample :
  let d := annotate (white_image ModeL 40 15) "color" "portrait" "two_holes" "no_staple" in
  height (im d) = 15%nat
  ∧ filter is_ellipse (calls d)
    = [Ellipse (10, -5, 30, 15) grey; Ellipse (10, 0, 30, 20) grey]
  ∧ ¬ Forall (λ c, Forall (on_canvas (im d)) (corners c))
             (filter is_ellipse (calls d)).
Proof.
  intros d.
  assert (Hmarks : filter is_ellipse (calls d)
                   = [Ellipse (10, -5, 30, 15) grey; Ellipse (10, 0, 30, 20) grey])
    by (subst d; rewrite annotate_calls; reflexivity).
  split; [reflexivity | split; [exact Hmarks |]].
  rewrite Hmarks. intros Hall.
  apply Forall_cons_1 in Hall as [Hfirst _].
  apply Forall_cons_1 in Hfirst as [[_ [Hy _]] _].
  simpl in Hy. lia.
Qed.

Lemma C6_marks_on_canvas_iff_witness :
  let d := annotate (white_image ModeL 31 31) "color" "portrait" "two_holes" "no_staple" in
  ("two_holes" = "two_holes" ∨ "two_holes" = "three_holes")
  ∧ Forall (λ c, Forall (on_canvas (im d)) (corners c))
           (filter is_ellipse (calls d)).
Proof.
  intros d. split; [by left |].
  destruct (C6_marks_on_canvas_iff (white_image ModeL 31 31) "color" "portrait" "two_holes"
              "no_staple" (or_introl eq_refl)) as [_ Hiff].
  apply Hiff. split; vm_compute; lia.
Defined.

(** C5, refuted as stated: a picture uploaded with the colour mode
    "sepia" is not rejected.  The route runs the handler, which answers
    with the preview page, having written the upload, its copy and the
    processed image, which is the picture as it would be for "color". *)
Lemma C5_counterexample :
  let run := upload_route sepia_upload ∅ in
  ¬ valid_options sepia_upload
  ∧ run.1 = Ran (inr (Slider ["/static/processed_a.png"]))
  ∧ run.2 !! "/srv/app/uploaded_files/a.png" = Some raw_3x2
  ∧ run.2 !! "/srv/app/pdf_images/a.png" = Some raw_3x2
  ∧ run.2 !! "/srv/app/pdf_images/processed_a.png" = Some raw_3x2.
Proof.
  intros run. split.
  - intros [Hcc _]. unfold copy_color_domain in Hcc. simpl in Hcc.
    set_unfold. by destruct Hcc as [? | [? | []]].
  - subst run. by vm_compute.
Qed.

(** Both runs, run: the turned picture, under the same name. *)
Example process_image_on_two_disks :
  let run1 := process_image "pdf_images/a.png"
                "black_and_white" "landscape" "two_holes" "corner_staple" disk_one in
  let run2 := process_image "uploaded_files/a.png"
                "black_and_white" "landscape" "two_holes" "corner_staple" disk_two in
  run1.1 = inr "pdf_images/processed_a.png"
  ∧ run1.2 !! "/srv/app/pdf_images/processed_a.png"
    = Some [x02; x03; x06; x02; x05; x01; x04]
  ∧ run2.2 !! "/srv/app/pdf_images/processed_a.png"
    = run1.2 !! "/srv/app/pdf_images/processed_a.png".
Proof. by vm_compute. Qed.


(** The unsupported upload, run: the page, and the file left behind. *)
Example text_upload_run :
  upload_file text_upload ∅
  = (inr (HTMLResponse "<h1>Unsupported file type!</h1>"),
     {[ "/srv/app/uploaded_files/notes.txt" := [x68; x69] ]}).
Proof. by vm_compute. Qed.

(** [os.path.join] drops the folder in front of an absolute file name:
    such an upload is saved where its name says. *)
Example absolute_upload_run :
  upload_file absolute_upload ∅
  = (inr (HTMLResponse "<h1>Unsupported file type!</h1>"),
     {[ "/tmp/notes.txt" := [x68; x69] ]}).
Proof. by vm_compute. Qed.

(** ** The further properties on sample inputs *)

Lemma white_image_well_formed m w h : well_formed (white_image m w h).
Proof.
  split; simpl.
  - apply length_replicate.
  - apply Forall_replicate. by destruct m.
Qed.

Lemma rgb_3x2_eight_bit : Forall eight_bit (data rgb_3x2).
Proof. repeat constructor; simpl; lia. Qed.

Lemma X3_uncovered_pixels_untouched_witness :
  Forall (λ c, covers c 0 0 = false)
    (calls (annotate rgb_3x2 "color" "portrait" "two_holes" "corner_staple"))
  ∧ getpixel (im (annotate rgb_3x2 "color" "portrait" "two_holes" "corner_staple"))
      0 0
    = Some (PRGB 255 0 0).
Proof.
  assert (Hfree : Forall (λ c, covers c 0 0 = false)
            (calls (annotate rgb_3x2 "color" "portrait" "two_holes"
                      "corner_staple")))
    by (rewrite annotate_calls; repeat constructor).
  split; [exact Hfree |].
  rewrite (X3_uncovered_pixels_untouched rgb_3x2 "color" "portrait"
             "two_holes" "corner_staple" 0 0 Hfree).
  reflexivity.
Defined.

Lemma X4_staple_on_top_witness :
  polygon_mask staple_coords 56 38 = true
  ∧ getpixel (im (annotate (white_image ModeRGB 80 50)
                    "color" "portrait" "three_holes" "corner_staple")) 56 38
    = Some (PRGB 128 128 128).
Proof.
  split; [reflexivity |].
  rewrite (X4_staple_on_top (white_image ModeRGB 80 50) "color" "portrait"
             "three_holes" 56 38 (white_image_well_formed ModeRGB 80 50)).
  - reflexivity.
  - vm_compute. lia.
  - vm_compute. lia.
  - reflexivity.
Defined.

Lemma X5_annotate_eight_bit_witness :
  Forall eight_bit (data rgb_3x2)
  ∧ Forall eight_bit
      (data (im (annotate rgb_3x2
                   "black_and_white" "landscape" "two_holes" "corner_staple"))).
Proof.
  split; [exact rgb_3x2_eight_bit |].
  exact (X5_annotate_eight_bit rgb_3x2 "black_and_white" "landscape"
           "two_holes" "corner_staple" rgb_3x2_eight_bit).
Defined.

Lemma X6_two_turns_half_turn_witness :
  well_formed rgb_3x2
  ∧ getpixel
      (im (annotate
             (im (annotate rgb_3x2 "color" "landscape" "no_hole" "no_staple"))
             "color" "landscape" "no_hole" "no_staple"))
      2 1
    = Some (PRGB 255 0 0).
Proof.
  split; [exact rgb_3x2_well_formed |].
  assert (Hx : (0 < width rgb_3x2)%nat) by (vm_compute; lia).
  assert (Hy : (0 < height rgb_3x2)%nat) by (vm_compute; lia).
  exact (X6_two_turns_half_turn rgb_3x2 0 0 rgb_3x2_well_formed Hx Hy).
Defined.

Lemma X9_pdf_preview_pages_witness :
  (extension_of (filename two_page_pdf_upload) = "pdf"
   ∧ pdf_pixmaps (Host := paged_host) (file two_page_pdf_upload)
     = Some [raw_3x2; raw_3x2])
  ∧ (upload_file (host := paged_host) two_page_pdf_upload ∅).1
    = inr (Slider ["/static/processed_scan_page_1.jpg";
                   "/static/processed_scan_page_2.jpg"]).
Proof.
  split; [by split |].
  assert (Hrun : ∃ response,
            (upload_file (host := paged_host) two_page_pdf_upload ∅).1
            = inr response)
    by (eexists; vm_compute; reflexivity).
  destruct Hrun as [response Hrun]. rewrite Hrun. f_equal.
  exact (X9_pdf_preview_pages (host := paged_host) two_page_pdf_upload ∅
           [raw_3x2; raw_3x2] response eq_refl eq_refl eq_refl Hrun).
Defined.

Lemma X10_pdf_without_pages_witness :
  (extension_of (filename empty_pdf_upload) = "pdf"
   ∧ pdf_pixmaps (Host := paged_host) (file empty_pdf_upload) = Some [])
  ∧ upload_file (host := paged_host) empty_pdf_upload ∅
    = (inr (Slider []),
       {[ "/srv/app/uploaded_files/empty.PDF" := [x25; x50; x44; x46] ]}).
Proof.
  split; [by split |].
  exact (X10_pdf_without_pages (host := paged_host) empty_pdf_upload ∅
           eq_refl eq_refl eq_refl).
Defined.

Lemma X11_pdf_not_a_pdf_witness :
  (extension_of (filename fake_pdf_upload) = "pdf"
   ∧ pdf_pixmaps (Host := paged_host) (file fake_pdf_upload) = None)
  ∧ upload_file (host := paged_host) fake_pdf_upload ∅
    = (inl FileDataError,
       {[ "/srv/app/uploaded_files/notes.pdf" := [x68; x69] ]}).
Proof.
  split; [by split |].
  exact (X11_pdf_not_a_pdf (host := paged_host) fake_pdf_upload ∅
           eq_refl eq_refl eq_refl).
Defined.

Lemma X12_image_not_an_image_witness :
  (extension_of (filename fake_image_upload) ∈ image_extensions
   ∧ image_open (file fake_image_upload) = None)
  ∧ upload_file fake_image_upload ∅
    = (inl UnidentifiedImageError,
       {[ "/srv/app/pdf_images/a.JPG" := [];
          "/srv/app/uploaded_files/a.JPG" := [] ]}).
Proof.
  assert (Hext : extension_of (filename fake_image_upload) ∈ image_extensions)
    by (vm_compute; left).
  split; [by split |].
  refine (X12_image_not_an_image fake_image_upload ∅ Hext eq_refl eq_refl _
            eq_refl).
  vm_compute. discriminate.
Defined.

Lemma X13_image_same_file_witness :
  (extension_of (filename absolute_image_upload) ∈ image_extensions
   ∧ path_abspath (upload_path absolute_image_upload)
     = path_abspath (path_join IMAGE_FOLDER (filename absolute_image_upload)))
  ∧ upload_file absolute_image_upload ∅
    = (inl SameFileError, {[ "/srv/app/pdf_images/a.png" := raw_3x2 ]}).
Proof.
  assert (Hext : extension_of (filename absolute_image_upload) ∈ image_extensions)
    by (vm_compute; right; right; left).
  split; [by split |].
  exact (X13_image_same_file absolute_image_upload ∅ Hext eq_refl eq_refl).
Defined.

Lemma X14_upload_not_writable_witness :
  writable (Host := read_only_host) (path_abspath (upload_path text_upload))
  = false
  ∧ upload_file (host := read_only_host) text_upload ∅ = (inl OSError, ∅).
Proof.
  split; [reflexivity |].
  exact (X14_upload_not_writable (host := read_only_host) text_upload ∅ eq_refl).
Defined.

Lemma X16_office_name_without_dot_witness :
  (extension_of (filename dotless_doc_upload) ∈ office_extensions
   ∧ extension_of (upload_path dotless_doc_upload) ∉ office_extensions)
  ∧ upload_file dotless_doc_upload ∅
    = (inl FileNotFoundError, {[ "/srv/app/uploaded_files/doc" := [x68; x69] ]}).
Proof.
  assert (Hext : extension_of (filename dotless_doc_upload) ∈ office_extensions)
    by (vm_compute; left).
  pose proof (posix_dotless_upload_path "/srv/app" "doc" eq_refl) as Hpath.
  split; [by split |].
  exact (X16_office_name_without_dot dotless_doc_upload ∅ Hext Hpath
           eq_refl eq_refl).
Defined.


(** A file name with [..] in it leaves the folder too. *)
Example traversal_upload_run :
  upload_file traversal_upload ∅
  = (inr (HTMLResponse "<h1>Unsupported file type!</h1>"),
     {[ "/srv/app/evil.txt" := [x68; x69] ]}).
Proof. by vm_compute. Qed.

(** An empty option stops at the route: validation error, nothing
    written. *)
Example empty_option_run :
  upload_route
    {| filename := "a.png"; file := raw_3x2;
       copy_color := EmptyString; orientation := "portrait";
       paper_punch := "no_hole"; paper_binding := "no_staple" |} ∅
  = (RequestValidationError, ∅).
Proof. reflexivity. Qed.

Lemma X17_extension_shape_witness :
  is_ascii "Report.Final.DOCX" = true
  ∧ extension_of "Report.Final.DOCX" = "docx"
  ∧ occurs "." (extension_of "Report.Final.DOCX") = false.
Proof.
  split; [reflexivity |]. split; [reflexivity |].
  exact (proj1 (X17_extension_shape "Report.Final.DOCX" eq_refl)).
Defined.
